(** * GEO_HDAFileFormat: file-format argument composition for HDA layers

    A shallow embedding of GEO_HDAFileFormat.cpp (the dynamic file format
    that loads Houdini digital assets as scene-description layers) together
    with the properties of its four entry points: [CanRead], [Read],
    [CanFieldChangeAffectFileFormatArguments] and
    [ComposeFieldsForFileFormatArguments].

    Layout: models of the library types the file works on ([Tf] paths,
    [VtValue]); the interface of what is defined outside the file (macros,
    casts, formatting, the data object); the embedded functions, in the
    order of the source; an instance to run them on concrete layers; the
    vocabulary of the statements; and the theorems. *)

From Stdlib Require Import Floats ZArith Ascii String.
From stdpp Require Import gmap strings list pretty.

Local Open Scope string_scope.

(* ===================================================================== *)
(** ** Path utilities of the Tf library *)
(* ===================================================================== *)

Module Tf.

(** [std::string::rfind(c)]: the index of the last occurrence of [c]. *)
Fixpoint rfind (c : ascii) (s : string) : option nat :=
  match s with
  | EmptyString => None
  | String a t =>
      match rfind c t with
      | Some i => Some (S i)
      | None => if Ascii.eqb a c then Some 0 else None
      end
  end.

(** [s.substr(pos)]: everything from index [pos] on. *)
Definition substr_from (pos : nat) (s : string) : string :=
  substring pos (String.length s - pos) s.

(** [TfStringGetSuffix(name, '.')]: what follows the last delimiter, the
    empty string when there is none. *)
Definition TfStringGetSuffix (name : string) : string :=
  match rfind "." name with
  | None => ""
  | Some i => substr_from (S i) name
  end.

(** [TfStringGetBeforeSuffix(name, '.')]: what precedes the last
    delimiter, the whole name when there is none. *)
Definition TfStringGetBeforeSuffix (name : string) : string :=
  match rfind "." name with
  | None => name
  | Some i => substring 0 i name
  end.

(** [TfGetBaseName]: the last path component; a trailing directory
    delimiter is dropped and the function calls itself on the shorter
    string, which the embedding bounds by [fuel]. *)
Fixpoint TfGetBaseName_rec (fuel : nat) (fileName : string) : string :=
  match fuel with
  | O => fileName
  | S fuel' =>
      match fileName with
      | EmptyString => fileName
      | _ =>
          match rfind "/" fileName with
          | None => fileName
          | Some i =>
              if Nat.eqb i (String.length fileName - 1)
              then TfGetBaseName_rec fuel' (substring 0 i fileName)
              else substr_from (S i) fileName
          end
      end
  end.

Definition TfGetBaseName (fileName : string) : string :=
  TfGetBaseName_rec (S (String.length fileName)) fileName.

(** [TfGetExtension]: the suffix of the base name; empty for the empty
    path and for a dot file without extension. *)
Definition TfGetExtension (path : string) : string :=
  match path with
  | EmptyString => ""
  | _ =>
      let fileName := TfGetBaseName path in
      match TfStringGetBeforeSuffix fileName with
      | EmptyString => ""
      | _ => TfStringGetSuffix fileName
      end
  end.

End Tf.

(* ===================================================================== *)
(** ** Values held by a [VtValue] *)
(* ===================================================================== *)

(** Modelled from the spec: the enumeration [GEO_HAPITimeCaching] is declared
    in GEO_HAPIUtils.h; GEO_HDAFileFormat.cpp uses its three tags, which the
    format description lists as the closed set None, Continuous, Range. *)
Inductive GEO_HAPITimeCaching : Set :=
| GEO_HAPI_TIME_CACHING_NONE
| GEO_HAPI_TIME_CACHING_CONTINUOUS
| GEO_HAPI_TIME_CACHING_RANGE.

#[global] Instance GEO_HAPITimeCaching_eq_dec : EqDecision GEO_HAPITimeCaching.
Proof. solve_decision. Defined.

Definition TfToken := string.

(** A C++ [double] is a binary64 float; a C++ [float] is kept as the
    binary64 float of the same value. *)
Definition double := float.
Definition float32 := float.
Definition int64 := Z.

Record GfVec2d := mkVec2d { v2_0 : double; v2_1 : double }.
Record GfVec3d := mkVec3d { v3_0 : double; v3_1 : double; v3_2 : double }.
Record GfVec4d :=
  mkVec4d { v4_0 : double; v4_1 : double; v4_2 : double; v4_3 : double }.

(** [GfVecNd::GetArray()]: the components, in order. *)
Definition GfVec2d_GetArray (v : GfVec2d) : list double := [v2_0 v; v2_1 v].
Definition GfVec3d_GetArray (v : GfVec3d) : list double :=
  [v3_0 v; v3_1 v; v3_2 v].
Definition GfVec4d_GetArray (v : GfVec4d) : list double :=
  [v4_0 v; v4_1 v; v4_2 v; v4_3 v].

(** The type-erased value container.  One constructor per held type that a
    metadata field of this format can carry; a [VtDictionary] is kept as the
    sequence of its entries in iteration order (it is a [std::map], so the
    keys ascend and none is repeated). *)
#[warnings="-register-all"]
Inductive VtValue : Type :=
| V_empty
| V_bool (b : bool)
| V_int (i : Z)
| V_float (f : float32)
| V_double (d : double)
| V_string (s : string)
| V_TfToken (t : TfToken)
| V_GfVec2d (v : GfVec2d)
| V_GfVec3d (v : GfVec3d)
| V_GfVec4d (v : GfVec4d)
| V_VtDoubleArray (a : list double)
| V_VtInt64Array (a : list int64)
| V_VtDictionary (d : list (string * VtValue))
| V_GEO_HAPITimeCaching (m : GEO_HAPITimeCaching).

Definition VtDoubleArray := list double.
Definition VtInt64Array := list int64.
Definition VtDictionary := list (string * VtValue).

(** [IsHolding<T>()] followed by [UncheckedGet<T>()]: [Some] exactly when
    the value holds a [T]. *)
Definition Get_string (v : VtValue) : option string :=
  match v with V_string s => Some s | _ => None end.
Definition Get_float (v : VtValue) : option float32 :=
  match v with V_float f => Some f | _ => None end.
Definition Get_bool (v : VtValue) : option bool :=
  match v with V_bool b => Some b | _ => None end.
Definition Get_VtDictionary (v : VtValue) : option VtDictionary :=
  match v with V_VtDictionary d => Some d | _ => None end.
Definition Get_GEO_HAPITimeCaching (v : VtValue) : option GEO_HAPITimeCaching :=
  match v with V_GEO_HAPITimeCaching m => Some m | _ => None end.

Definition list_eqb {A} (eqb : A -> A -> bool) : list A -> list A -> bool :=
  fix go l1 l2 :=
    match l1, l2 with
    | [], [] => true
    | x :: l1', y :: l2' => eqb x y && go l1' l2'
    | _, _ => false
    end.

(** [operator==] on [VtValue]: values of different held types are unequal;
    values of one held type are compared with that type's [==] (IEEE
    equality on floating-point components, entry by entry on
    dictionaries). *)
Fixpoint VtValue_eqb (x y : VtValue) {struct x} : bool :=
  match x, y with
  | V_empty, V_empty => true
  | V_bool a, V_bool b => Bool.eqb a b
  | V_int a, V_int b => Z.eqb a b
  | V_float a, V_float b => PrimFloat.eqb a b
  | V_double a, V_double b => PrimFloat.eqb a b
  | V_string a, V_string b => String.eqb a b
  | V_TfToken a, V_TfToken b => String.eqb a b
  | V_GfVec2d a, V_GfVec2d b =>
      list_eqb PrimFloat.eqb (GfVec2d_GetArray a) (GfVec2d_GetArray b)
  | V_GfVec3d a, V_GfVec3d b =>
      list_eqb PrimFloat.eqb (GfVec3d_GetArray a) (GfVec3d_GetArray b)
  | V_GfVec4d a, V_GfVec4d b =>
      list_eqb PrimFloat.eqb (GfVec4d_GetArray a) (GfVec4d_GetArray b)
  | V_VtDoubleArray a, V_VtDoubleArray b => list_eqb PrimFloat.eqb a b
  | V_VtInt64Array a, V_VtInt64Array b => list_eqb Z.eqb a b
  | V_VtDictionary a, V_VtDictionary b =>
      (fix entries (l1 l2 : list (string * VtValue)) {struct l1} : bool :=
         match l1, l2 with
         | [], [] => true
         | (k1, v1) :: l1', (k2, v2) :: l2' =>
             String.eqb k1 k2 && VtValue_eqb v1 v2 && entries l1' l2'
         | _, _ => false
         end) a b
  | V_GEO_HAPITimeCaching a, V_GEO_HAPITimeCaching b => bool_decide (a = b)
  | _, _ => false
  end.

(** [operator!=] *)
Definition VtValue_neb (x y : VtValue) : bool := negb (VtValue_eqb x y).

(* ===================================================================== *)
(** ** GEO_HDAFileFormat: names and recognised extensions *)
(* ===================================================================== *)

Definition theParamDictToken : TfToken := "HDAParms".
Definition theOptionDictToken : TfToken := "HDAOptions".
Definition theAssetNameToken : TfToken := "HDAAssetName".
Definition theTimeCacheModeToken : TfToken := "HDATimeCacheMode".
Definition theTimeCacheStartToken : TfToken := "HDATimeCacheStart".
Definition theTimeCacheEndToken : TfToken := "HDATimeCacheEnd".
Definition theTimeCacheIntervalToken : TfToken := "HDATimeCacheInterval".
Definition theHAPISessionToken : TfToken := "HDAKeepEngineOpen".

Definition theExtensions : gset string :=
  list_to_set ["hda"; "otl"; "hdanc"; "otlnc"; "hdalc"; "otllc"].

(** [CanRead] (lines 61-65). *)
Definition CanRead (filePath : string) : bool :=
  bool_decide (Tf.TfGetExtension filePath ∈ theExtensions).

(** [CanFieldChangeAffectFileFormatArguments] (lines 85-107): the early
    [return false] for a range setting under a mode other than Range, and
    [oldValue != newValue] on every other path. *)
Definition CanFieldChangeAffectFileFormatArguments
    (field : TfToken) (oldValue newValue dependencyContextData : VtValue)
  : bool :=
  if bool_decide (field = theTimeCacheStartToken)
     || bool_decide (field = theTimeCacheEndToken)
     || bool_decide (field = theTimeCacheIntervalToken)
  then
    match Get_GEO_HAPITimeCaching dependencyContextData with
    | Some mode =>
        if negb (bool_decide (mode = GEO_HAPI_TIME_CACHING_RANGE))
        then false
        else VtValue_neb oldValue newValue
    | None => VtValue_neb oldValue newValue
    end
  else VtValue_neb oldValue newValue.

(* ===================================================================== *)
(** ** What GEO_HDAFileFormat.cpp takes from elsewhere *)
(* ===================================================================== *)

(** The three macros of GEO_HAPIUtils.h that build the keys and values of
    numeric and string parameters.  Their values are left open: every
    statement below holds whatever they are. *)
Class GEO_HAPIUtils := {
  GEO_HDA_PARM_NUMERIC_PREFIX : string;
  GEO_HDA_PARM_STRING_PREFIX : string;
  GEO_HDA_PARM_SEPARATOR : string;
}.

(** Library functions the composition calls: the registered [VtValue]
    casts ([Cast_T v] is [Some] exactly when [v.CanCast<T>()], and then
    carries [v.Cast<T>().UncheckedGet<T>()]), [GetTypeName], the ["{0}"]
    formatting of [UT_WorkBuffer] and [TfStringify]. *)
Class HostLibraries := {
  Cast_double : VtValue -> option double;
  Cast_GfVec2d : VtValue -> option GfVec2d;
  Cast_GfVec3d : VtValue -> option GfVec3d;
  Cast_GfVec4d : VtValue -> option GfVec4d;
  Cast_VtDoubleArray : VtValue -> option VtDoubleArray;
  Cast_VtInt64Array : VtValue -> option VtInt64Array;
  GetTypeName : VtValue -> string;
  format_double : double -> string;
  format_int64 : int64 -> string;
  TfStringify : float32 -> string;
}.

(** Outcome of code that may read outside an array. *)
Inductive Outcome (A : Type) : Type :=
| Returns (a : A)
| OutOfBounds.
Arguments Returns {A} a.
Arguments OutOfBounds {A}.

Definition Outcome_bind {A B} (m : Outcome A) (k : A -> Outcome B)
  : Outcome B :=
  match m with
  | Returns a => k a
  | OutOfBounds => OutOfBounds
  end.

Notation "'let!' x ':=' m 'in' k" := (Outcome_bind m (fun x => k))
  (at level 10, x pattern, m at level 100, k at level 200).

Definition Outcome_map {A B} (f : A -> B) (m : Outcome A) : Outcome B :=
  let! a := m in Returns (f a).

(** [SdfFileFormat::FileFormatArguments] is a [std::map] from string to
    string; an assignment to [args[k]] is an insertion that replaces. *)
Abbreviation FileFormatArguments := (gmap string string).

(** [PcpDynamicFileFormatContext]: the composed (strongest) value of each
    metadata field that has one. *)
Abbreviation PcpDynamicFileFormatContext := (gmap TfToken VtValue).

(* ===================================================================== *)
(** ** addNumericNodeParmToFormatArgs *)
(* ===================================================================== *)

(** What the function reads and writes through its reference parameters,
    and the warnings it posts. *)
Record NodeParmEnv := mkNodeParmEnv {
  np_args : FileFormatArguments;
  parmBuf : string;
  valBuf : string;
  np_warnings : list string;
}.

Definition unexpectedDataType (typeName : string) : string :=
  "Unexpected data type '" ++ typeName ++ "' for parameter.".

(** What a ["%s"] conversion writes for a character pointer: the
    characters up to the first NUL.  [s.c_str()] points at the characters
    of [s], which may hold NUL characters themselves. *)
Fixpoint c_str (s : string) : string :=
  match s with
  | EmptyString => EmptyString
  | String a rest =>
      if Ascii.eqb a Ascii.zero then EmptyString else String a (c_str rest)
  end.

(** The conversion of a [size_t] to the [int] parameter of [addToArgs]:
    the value modulo [2^32], read as a signed 32-bit integer. *)
Definition to_int (n : Z) : Z := ((n + 2 ^ 31) mod 2 ^ 32 - 2 ^ 31)%Z.

Section NodeParm.
Context `{GEO_HAPIUtils} `{HostLibraries}.

(** The loop [for (int i = 1; i < count; i++) valBuf.appendFormat(...)];
    [n] is the number of iterations left. *)
Fixpoint appendElements {T} (fmt : T -> string) (data : list T)
    (i n : nat) (buf : string) : Outcome string :=
  match n with
  | O => Returns buf
  | S n' =>
      match data !! i with
      | Some x =>
          appendElements fmt data (S i) n'
            (buf ++ GEO_HDA_PARM_SEPARATOR ++ fmt x)
      | None => OutOfBounds
      end
  end.

(** The lambda [addToArgs(data, count)] (lines 123-136): [data] is the
    array behind the pointer and [count] an [int]; [data[0]] is formatted
    whatever [count] is, the loop then runs over the indices [i] with
    [1 <= i < count], none when [count <= 1].  The key is built by
    [format], which is handed [parmName] as a [std::string] and is taken
    to write all of its characters. *)
Definition addToArgs {T} (fmt : T -> string) (parmName : string)
    (data : list T) (count : Z) (e : NodeParmEnv) : Outcome NodeParmEnv :=
  let parmBuf' := GEO_HDA_PARM_NUMERIC_PREFIX ++ parmName in
  match data !! 0 with
  | None => OutOfBounds
  | Some d0 =>
      let! valBuf' :=
        appendElements fmt data 1 (Z.to_nat (count - 1)) (fmt d0) in
      Returns {| np_args := <[parmBuf' := valBuf']> (np_args e);
                 parmBuf := parmBuf';
                 valBuf := valBuf';
                 np_warnings := np_warnings e |}
  end.

(** [addNumericNodeParmToFormatArgs] (lines 116-180): the chain of
    [CanCast] tests, each followed by the cast and [addToArgs]; the final
    [else] posts the warning.  For the two array types the count is
    [vals.size()], a [size_t], narrowed to the [int] parameter. *)
Definition addNumericNodeParmToFormatArgs (parmName : string)
    (parmData : VtValue) (e : NodeParmEnv) : Outcome NodeParmEnv :=
  match Cast_double parmData with
  | Some val => addToArgs format_double parmName [val] 1%Z e
  | None =>
  match Cast_GfVec2d parmData with
  | Some vec => addToArgs format_double parmName (GfVec2d_GetArray vec) 2%Z e
  | None =>
  match Cast_GfVec3d parmData with
  | Some vec => addToArgs format_double parmName (GfVec3d_GetArray vec) 3%Z e
  | None =>
  match Cast_GfVec4d parmData with
  | Some vec => addToArgs format_double parmName (GfVec4d_GetArray vec) 4%Z e
  | None =>
  match Cast_VtDoubleArray parmData with
  | Some vals =>
      addToArgs format_double parmName vals
        (to_int (Z.of_nat (length vals))) e
  | None =>
  match Cast_VtInt64Array parmData with
  | Some vals =>
      addToArgs format_int64 parmName vals
        (to_int (Z.of_nat (length vals))) e
  | None =>
      Returns {| np_args := np_args e;
                 parmBuf := parmBuf e;
                 valBuf := valBuf e;
                 np_warnings :=
                   np_warnings e
                     ++ [unexpectedDataType (GetTypeName parmData)] |}
  end end end end end end.

(** One turn of the loop over the parameter dictionary (lines 206-223).
    The key of a string entry is built by [sprintf("%s%s", ...)] from the
    prefix and [parmName.c_str()]: each is written up to its first NUL. *)
Definition addNodeParm (parmName : string) (data : VtValue)
    (e : NodeParmEnv) : Outcome NodeParmEnv :=
  match Get_string data with
  | Some strData =>
      let parmBuf' :=
        c_str GEO_HDA_PARM_STRING_PREFIX ++ c_str parmName in
      Returns {| np_args := <[parmBuf' := strData]> (np_args e);
                 parmBuf := parmBuf';
                 valBuf := valBuf e;
                 np_warnings := np_warnings e |}
  | None => addNumericNodeParmToFormatArgs parmName data e
  end.

Fixpoint forEachParm (paramDict : VtDictionary) (e : NodeParmEnv)
  : Outcome NodeParmEnv :=
  match paramDict with
  | [] => Returns e
  | (parmName, data) :: rest =>
      let! e' := addNodeParm parmName data e in
      forEachParm rest e'
  end.

End NodeParm.

(* ===================================================================== *)
(** ** ComposeFieldsForFileFormatArguments *)
(* ===================================================================== *)

(** The variables the function body works on: the mapping behind the
    caller's [args], the local [contextVal] that every [ComposeValue] call
    writes to, and the warnings posted so far. *)
Record Composition := mkComposition {
  args : FileFormatArguments;
  contextVal : VtValue;
  warnings : list string;
}.

Definition setArg (key value : string) (c : Composition) : Composition :=
  {| args := <[key := value]> (args c);
     contextVal := contextVal c;
     warnings := warnings c |}.

(** [context.ComposeValue(field, &contextVal)]: on success the composed
    value is stored in [contextVal]; otherwise [contextVal] keeps what it
    held. *)
Definition ComposeValue (context : PcpDynamicFileFormatContext)
    (field : TfToken) (c : Composition) : bool * Composition :=
  match context !! field with
  | Some v =>
      (true, {| args := args c; contextVal := v; warnings := warnings c |})
  | None => (false, c)
  end.

(** What a call leaves behind: the mapping behind [args], the value behind
    [dependencyContextData] and the warnings posted. *)
Record Composed := mkComposed {
  out_args : FileFormatArguments;
  out_dependencyContextData : VtValue;
  out_warnings : list string;
}.

Section Compose.
Context `{GEO_HAPIUtils} `{HostLibraries}.

(** The parameter dictionary, field [HDAParms] (lines 195-225). *)
Definition composeParms (context : PcpDynamicFileFormatContext)
    (c : Composition) : Outcome Composition :=
  let '(found, c) := ComposeValue context theParamDictToken c in
  if found then
    match Get_VtDictionary (contextVal c) with
    | Some paramDict =>
        let! e := forEachParm paramDict
                    {| np_args := args c; parmBuf := ""; valBuf := "";
                       np_warnings := warnings c |} in
        Returns {| args := np_args e;
                   contextVal := contextVal c;
                   warnings := np_warnings e |}
    | None => Returns c
    end
  else Returns c.

(** One turn of the loop over the options dictionary (lines 236-243). *)
Definition addOption (a : FileFormatArguments) (entry : string * VtValue)
  : FileFormatArguments :=
  let '(optName, data) := entry in
  match Get_string data with
  | Some out => <[optName := out]> a
  | None => a
  end.

(** The options dictionary, field [HDAOptions] (lines 227-245). *)
Definition composeOptions (context : PcpDynamicFileFormatContext)
    (c : Composition) : Composition :=
  let '(found, c) := ComposeValue context theOptionDictToken c in
  if found then
    match Get_VtDictionary (contextVal c) with
    | Some optDict =>
        {| args := fold_left addOption optDict (args c);
           contextVal := contextVal c;
           warnings := warnings c |}
    | None => c
    end
  else c.

(** The asset name, field [HDAAssetName] (lines 247-253). *)
Definition composeAssetName (context : PcpDynamicFileFormatContext)
    (c : Composition) : Composition :=
  let '(found, c) := ComposeValue context theAssetNameToken c in
  if found then
    match Get_string (contextVal c) with
    | Some name => setArg "assetname" name c
    | None => c
    end
  else c.

(** One of the three range settings (lines 272-277, 278-283, 284-289):
    composed, and written under [key] when it holds a [float]. *)
Definition composeRangeSetting (context : PcpDynamicFileFormatContext)
    (field : TfToken) (key : string) (c : Composition) : Composition :=
  let '(found, c) := ComposeValue context field c in
  if found then
    match Get_float (contextVal c) with
    | Some out => setArg key (TfStringify out) c
    | None => c
    end
  else c.

(** The time caching metadata (lines 255-293): field [HDATimeCacheMode]
    and, under ["range"], the three range settings.  Returns the composition
    and [cacheContext].  The source binds [mode] as a reference to the
    string held by [contextVal]; here it is the string read at that
    point. *)
Definition composeTimeCaching (context : PcpDynamicFileFormatContext)
    (c : Composition) : Composition * GEO_HAPITimeCaching :=
  let cacheContext := GEO_HAPI_TIME_CACHING_NONE in
  let '(found, c) := ComposeValue context theTimeCacheModeToken c in
  if found then
    match Get_string (contextVal c) with
    | Some mode =>
        let '(c, cacheContext) :=
          if decide (mode = "none") then
            (c, GEO_HAPI_TIME_CACHING_NONE)
          else if decide (mode = "continuous") then
            (c, GEO_HAPI_TIME_CACHING_CONTINUOUS)
          else if decide (mode = "range") then
            let c := composeRangeSetting context theTimeCacheStartToken
                       "timecachestart" c in
            let c := composeRangeSetting context theTimeCacheEndToken
                       "timecacheend" c in
            let c := composeRangeSetting context theTimeCacheIntervalToken
                       "timecacheinterval" c in
            (c, GEO_HAPI_TIME_CACHING_RANGE)
          else (c, cacheContext) in
        (setArg "timecachemethod" mode c, cacheContext)
    | None => (c, cacheContext)
    end
  else (c, cacheContext).

(** The session holding metadata, field [HDAKeepEngineOpen]
    (lines 295-301). *)
Definition composeSession (context : PcpDynamicFileFormatContext)
    (c : Composition) : Composition :=
  let '(found, c) := ComposeValue context theHAPISessionToken c in
  if found then
    match Get_bool (contextVal c) with
    | Some holdSession =>
        setArg "keepengineopen" (if holdSession then "1" else "0") c
    | None => c
    end
  else c.

(** The function itself (lines 183-306).  [args0] is what the mapping
    behind [args] holds on entry: the function only ever assigns entries of
    it. *)
Definition ComposeFieldsForFileFormatArguments (assetPath : string)
    (context : PcpDynamicFileFormatContext) (args0 : FileFormatArguments)
  : Outcome Composed :=
  let c := {| args := args0; contextVal := V_empty; warnings := [] |} in
  let! c := composeParms context c in
  let c := composeOptions context c in
  let c := composeAssetName context c in
  let '(c, cacheContext) := composeTimeCaching context c in
  let c := composeSession context c in
  Returns {| out_args := args c;
             out_dependencyContextData :=
               V_GEO_HAPITimeCaching cacheContext;
             out_warnings := warnings c |}.

End Compose.

(* ===================================================================== *)
(** ** Read *)
(* ===================================================================== *)

Section Read.
(** The layer data is an [SdfAbstractData]; [New] is
    [GEO_HDAFileData::New] and [Open] is [GEO_HDAFileData::Open], both
    declared in GEO_HDAFileData.h and defined in another file.  [data] and
    [geoData] are two pointers to one object, so [Open] hands back that
    object as it left it. *)
Variable SdfAbstractData : Type.
Variable New : FileFormatArguments -> SdfAbstractData.
Variable Open : SdfAbstractData -> string -> bool * SdfAbstractData.

(** The part of an [SdfLayer] that [Read] touches. *)
Record SdfLayer := mkSdfLayer {
  GetFileFormatArguments : FileFormatArguments;
  layerData : SdfAbstractData;
}.

Definition _SetLayerData (layer : SdfLayer) (data : SdfAbstractData)
  : SdfLayer :=
  {| GetFileFormatArguments := GetFileFormatArguments layer;
     layerData := data |}.

(** [Read] (lines 67-83). *)
Definition Read (layer : SdfLayer) (resolvedPath : string)
    (metadataOnly : bool) : bool * SdfLayer :=
  let data := New (GetFileFormatArguments layer) in
  let '(opened, data) := Open data resolvedPath in
  if negb opened then (false, layer)
  else (true, _SetLayerData layer data).

End Read.

Arguments GetFileFormatArguments {SdfAbstractData} _.
Arguments layerData {SdfAbstractData} _.

(* ===================================================================== *)
(** ** An instance to run the functions on *)
(* ===================================================================== *)

Module Sample.

(** Modelled from the spec: the macros of GEO_HAPIUtils.h.  The spec's
    scenario writes the numeric key of parameter [speed] as
    [numeric_speed], and the comment above [addNumericNodeParmToFormatArgs]
    says the elements are space separated; the string prefix is chosen
    alike. *)
#[export] Instance utils : GEO_HAPIUtils := {|
  GEO_HDA_PARM_NUMERIC_PREFIX := "numeric_";
  GEO_HDA_PARM_STRING_PREFIX := "string_";
  GEO_HDA_PARM_SEPARATOR := " ";
|}.

(** The digits of [r / d] after the decimal point, for [0 <= r < d]. *)
Fixpoint fraction_digits (fuel : nat) (r d : Z) : string :=
  match fuel with
  | O => ""
  | S fuel' =>
      if (r =? 0)%Z then ""
      else pretty (10 * r / d)%Z ++ fraction_digits fuel' (10 * r mod d)%Z d
  end.

(** A stand-in for the number formatting of the host libraries: the exact
    decimal expansion of the value. *)
Definition decimal (x : float) : string :=
  match Prim2SF x with
  | S754_zero s => if s then "-0" else "0"
  | S754_infinity s => if s then "-inf" else "inf"
  | S754_nan => "nan"
  | S754_finite s m e =>
      (if s then "-" else "")
      ++ (if (0 <=? e)%Z then pretty (Z.pos m * 2 ^ e)%Z
          else
            let d := (2 ^ (- e))%Z in
            let r := (Z.pos m mod d)%Z in
            pretty (Z.pos m / d)%Z
            ++ (if (r =? 0)%Z then ""
                else "." ++ fraction_digits (Z.to_nat (- e)) r d))
  end.

Definition double_of_Z (i : Z) : double :=
  let a := PrimFloat.of_uint63 (Uint63.of_Z (Z.abs i)) in
  if (i <? 0)%Z then PrimFloat.opp a else a.

(** An instance of the library interface: among the held types of
    [VtValue] the arithmetic ones cast to [double], vectors and arrays only
    to themselves; the type names and the number formatting are
    stand-ins. *)
#[export] Instance libs : HostLibraries := {|
  Cast_double v :=
    match v with
    | V_double d => Some d
    | V_float f => Some f
    | V_int i => Some (double_of_Z i)
    | V_bool b => Some (if b then 1%float else 0%float)
    | _ => None
    end;
  Cast_GfVec2d v := match v with V_GfVec2d x => Some x | _ => None end;
  Cast_GfVec3d v := match v with V_GfVec3d x => Some x | _ => None end;
  Cast_GfVec4d v := match v with V_GfVec4d x => Some x | _ => None end;
  Cast_VtDoubleArray v :=
    match v with V_VtDoubleArray a => Some a | _ => None end;
  Cast_VtInt64Array v :=
    match v with V_VtInt64Array a => Some a | _ => None end;
  GetTypeName v :=
    match v with
    | V_empty => "void"
    | V_bool _ => "bool"
    | V_int _ => "int"
    | V_float _ => "float"
    | V_double _ => "double"
    | V_string _ => "string"
    | V_TfToken _ => "TfToken"
    | V_GfVec2d _ => "GfVec2d"
    | V_GfVec3d _ => "GfVec3d"
    | V_GfVec4d _ => "GfVec4d"
    | V_VtDoubleArray _ => "VtArray<double>"
    | V_VtInt64Array _ => "VtArray<long>"
    | V_VtDictionary _ => "VtDictionary"
    | V_GEO_HAPITimeCaching _ => "GEO_HAPITimeCaching"
    end;
  format_double := decimal;
  format_int64 := pretty;
  TfStringify := decimal;
|}.

Definition compose (context : PcpDynamicFileFormatContext)
    (args0 : FileFormatArguments) : Outcome Composed :=
  ComposeFieldsForFileFormatArguments "asset.hda" context args0.

(** The scenarios of the format description. *)
Definition speedOnly : PcpDynamicFileFormatContext :=
  {[ theParamDictToken := V_VtDictionary [("speed", V_double 4%float)];
     theOptionDictToken := V_VtDictionary [];
     theTimeCacheModeToken := V_string "none" ]}.

Definition fullRange : PcpDynamicFileFormatContext :=
  {[ theTimeCacheModeToken := V_string "range";
     theTimeCacheStartToken := V_float 1%float;
     theTimeCacheEndToken := V_float 24%float;
     theTimeCacheIntervalToken := V_float 0.5%float ]}.

(** A mode string in another letter case, with the three range settings
    in place. *)
Definition casedMode : PcpDynamicFileFormatContext :=
  {[ theTimeCacheModeToken := V_string "Range";
     theTimeCacheStartToken := V_float 1%float;
     theTimeCacheEndToken := V_float 24%float;
     theTimeCacheIntervalToken := V_float 0.5%float ]}.

(** Range mode without a start, and with an interval that is a [double]
    instead of a [float]. *)
Definition partialRange : PcpDynamicFileFormatContext :=
  {[ theTimeCacheModeToken := V_string "range";
     theTimeCacheEndToken := V_float 24%float;
     theTimeCacheIntervalToken := V_double 0.5%float ]}.

(** Options of several types. *)
Definition someOptions : VtDictionary :=
  [("camera", V_string "/cam1"); ("frames", V_int 3);
   ("shutter", V_double 0.5%float)].
Definition withOptions : PcpDynamicFileFormatContext :=
  {[ theOptionDictToken := V_VtDictionary someOptions ]}.

(** An option that carries the name of a range key. *)
Definition optionNamedLikeRangeKey : PcpDynamicFileFormatContext :=
  {[ theOptionDictToken :=
       V_VtDictionary [("timecachestart", V_string "5")];
     theTimeCacheModeToken := V_string "none" ]}.

(** A parameter that is an array without elements. *)
Definition emptyArrayParm : PcpDynamicFileFormatContext :=
  {[ theParamDictToken :=
       V_VtDictionary [("amount", V_double 2%float);
                       ("pts", V_VtDoubleArray [])] ]}.

(** Parameters of every kind. *)
Definition manyParms : PcpDynamicFileFormatContext :=
  {[ theParamDictToken :=
       V_VtDictionary
         [("file", V_string "a.bgeo");
          ("ids", V_VtInt64Array [7%Z; 8%Z; 9%Z]);
          ("pivot", V_GfVec3d (mkVec3d 1.5%float 2%float (-3.25)%float));
          ("tag", V_TfToken "x")];
     theHAPISessionToken := V_bool true ]}.

(** A stand-in for the data object and the engine: the data is the list
    of primitives loaded so far, and opening succeeds on the paths that
    [CanRead] accepts. *)
Definition toyNew (cookArgs : FileFormatArguments) : list string := [].
Definition toyOpen (data : list string) (filePath : string)
  : bool * list string :=
  if CanRead filePath then (true, "HoudiniLayerInfo" :: data)
  else (false, "half cooked" :: data).
Definition toyLayer : SdfLayer (list string) :=
  {| GetFileFormatArguments := ∅; layerData := ["previous content"] |}.
Definition read (layer : SdfLayer (list string)) (resolvedPath : string)
  : bool * SdfLayer (list string) :=
  Read (list string) toyNew toyOpen layer resolvedPath false.

Definition fresh : Composition :=
  {| args := ∅; contextVal := V_empty; warnings := [] |}.

Definition noEnv : NodeParmEnv :=
  {| np_args := ∅; parmBuf := ""; valBuf := ""; np_warnings := [] |}.

Definition timeCaching (context : PcpDynamicFileFormatContext)
    (c : Composition) : Composition * GEO_HAPITimeCaching :=
  composeTimeCaching context c.

Definition numericParm (parmName : string) (parmData : VtValue)
    (e : NodeParmEnv) : Outcome NodeParmEnv :=
  addNumericNodeParmToFormatArgs parmName parmData e.

(** The entries of the mapping a call returns, its token and its
    warnings, for display. *)
Definition entries (r : Outcome Composed)
  : Outcome (list (string * string) * VtValue * list string) :=
  Outcome_map
    (fun c => (map_to_list (out_args c), out_dependencyContextData c,
               out_warnings c)) r.

End Sample.

(* ===================================================================== *)
(** ** Vocabulary of the statements *)
(* ===================================================================== *)

(** The three range settings. *)
Definition rangeSettingTokens : list TfToken :=
  [theTimeCacheStartToken; theTimeCacheEndToken; theTimeCacheIntervalToken].

(** Each range setting with the key it is written under. *)
Definition rangeSettings : list (TfToken * string) :=
  [(theTimeCacheStartToken, "timecachestart");
   (theTimeCacheEndToken, "timecacheend");
   (theTimeCacheIntervalToken, "timecacheinterval")].

(** The composed time caching mode: the string held by the composed value
    of [HDATimeCacheMode], if the field composes and holds a string. *)
Definition composedMode (context : PcpDynamicFileFormatContext)
  : option string :=
  context !! theTimeCacheModeToken ≫= Get_string.

(** The [float] held by the composed value of [field], if any. *)
Definition composedFloat (context : PcpDynamicFileFormatContext)
    (field : TfToken) : option float32 :=
  context !! field ≫= Get_float.

(** The context with the three range settings taken away. *)
Definition withoutRangeSettings (context : PcpDynamicFileFormatContext)
  : PcpDynamicFileFormatContext :=
  delete theTimeCacheStartToken
    (delete theTimeCacheEndToken
       (delete theTimeCacheIntervalToken context)).

(** A sequence of assignments [args[k] = v], applied in order. *)
Definition assign (a : FileFormatArguments) (kv : string * string)
  : FileFormatArguments :=
  <[kv.1 := kv.2]> a.
Definition assignAll (w : list (string * string)) (a : FileFormatArguments)
  : FileFormatArguments :=
  fold_left assign w a.

(** The elements of a numeric value as it is written: formatted and joined
    by the separator. *)
Fixpoint joined (sep : string) (elements : list string) : string :=
  match elements with
  | [] => ""
  | [x] => x
  | x :: rest => x ++ sep ++ joined sep rest
  end.

(** The elements of an array that [addToArgs] reaches when it is handed
    the size of the array as its count: the first one, and those at the
    indices below the count. *)
Definition elementsReached {T} (vals : list T) : list T :=
  take (Z.to_nat (Z.max 1 (to_int (Z.of_nat (length vals))))) vals.

(** What the loop of [addToArgs] appends for the elements after the
    first, and the elements that the first succeeding cast has written,
    already formatted ([None] when no cast succeeds). *)
Section NumericVocabulary.
Context `{GEO_HAPIUtils} `{HostLibraries}.

Fixpoint appended {T} (fmt : T -> string) (rest : list T) : string :=
  match rest with
  | [] => ""
  | x :: rest' => GEO_HDA_PARM_SEPARATOR ++ fmt x ++ appended fmt rest'
  end.

Definition firstCast (parmData : VtValue) : option (list string) :=
  match Cast_double parmData with
  | Some val => Some [format_double val]
  | None =>
  match Cast_GfVec2d parmData with
  | Some vec => Some (format_double <$> GfVec2d_GetArray vec)
  | None =>
  match Cast_GfVec3d parmData with
  | Some vec => Some (format_double <$> GfVec3d_GetArray vec)
  | None =>
  match Cast_GfVec4d parmData with
  | Some vec => Some (format_double <$> GfVec4d_GetArray vec)
  | None =>
  match Cast_VtDoubleArray parmData with
  | Some vals => Some (format_double <$> elementsReached vals)
  | None =>
  match Cast_VtInt64Array parmData with
  | Some vals => Some (format_int64 <$> elementsReached vals)
  | None => None
  end end end end end end.

End NumericVocabulary.

(** The caching mode that the composed mode string selects. *)
Definition cacheContextOf (context : PcpDynamicFileFormatContext)
  : GEO_HAPITimeCaching :=
  match composedMode context with
  | Some mode =>
      if decide (mode = "none") then GEO_HAPI_TIME_CACHING_NONE
      else if decide (mode = "continuous")
           then GEO_HAPI_TIME_CACHING_CONTINUOUS
      else if decide (mode = "range") then GEO_HAPI_TIME_CACHING_RANGE
      else GEO_HAPI_TIME_CACHING_NONE
  | None => GEO_HAPI_TIME_CACHING_NONE
  end.

(** The assignments to the mapping that a call makes, in the order it
    makes them, together with the warnings it posts, read off the context
    alone.  [Compose_assignments] below shows that the embedded function
    makes exactly these; the statements are about the embedded function,
    and this sequence is how they are proved. *)
Section Assignments.
Context `{GEO_HAPIUtils} `{HostLibraries}.



Definition parmAssignment (entry : string * VtValue)
  : Outcome (list (string * string) * list string) :=
  match Get_string entry.2 with
  | Some strData =>
      Returns ([(c_str GEO_HDA_PARM_STRING_PREFIX ++ c_str entry.1,
                 strData)], [])
  | None =>
      match firstCast entry.2 with
      | Some [] => OutOfBounds
      | Some elements =>
          Returns ([(GEO_HDA_PARM_NUMERIC_PREFIX ++ entry.1,
                     joined GEO_HDA_PARM_SEPARATOR elements)], [])
      | None => Returns ([], [unexpectedDataType (GetTypeName entry.2)])
      end
  end.

Fixpoint parmAssignments (paramDict : VtDictionary)
  : Outcome (list (string * string) * list string) :=
  match paramDict with
  | [] => Returns ([], [])
  | entry :: rest =>
      let! one := parmAssignment entry in
      let! more := parmAssignments rest in
      Returns ((one.1 ++ more.1)%list, (one.2 ++ more.2)%list)
  end.

Definition optionAssignments (optDict : VtDictionary)
  : list (string * string) :=
  omap (fun entry : string * VtValue =>
          match Get_string entry.2 with
          | Some out => Some (entry.1, out)
          | None => None
          end) optDict.

Definition rangeAssignment (context : PcpDynamicFileFormatContext)
    (field : TfToken) (key : string) : list (string * string) :=
  match composedFloat context field with
  | Some out => [(key, TfStringify out)]
  | None => []
  end.

Definition timeCachingAssignments (context : PcpDynamicFileFormatContext)
  : list (string * string) :=
  match composedMode context with
  | Some mode =>
      ((if decide (mode = "range") then
          rangeAssignment context theTimeCacheStartToken "timecachestart"
          ++ rangeAssignment context theTimeCacheEndToken "timecacheend"
          ++ rangeAssignment context theTimeCacheIntervalToken
               "timecacheinterval"
        else [])
       ++ [("timecachemethod", mode)])%list
  | None => []
  end.

Definition parmsAssignments (context : PcpDynamicFileFormatContext)
  : Outcome (list (string * string) * list string) :=
  match context !! theParamDictToken ≫= Get_VtDictionary with
  | Some paramDict => parmAssignments paramDict
  | None => Returns ([], [])
  end.

Definition optionsAssignments (context : PcpDynamicFileFormatContext)
  : list (string * string) :=
  match context !! theOptionDictToken ≫= Get_VtDictionary with
  | Some optDict => optionAssignments optDict
  | None => []
  end.

Definition assetNameAssignments (context : PcpDynamicFileFormatContext)
  : list (string * string) :=
  match context !! theAssetNameToken ≫= Get_string with
  | Some name => [("assetname", name)]
  | None => []
  end.

Definition sessionAssignments (context : PcpDynamicFileFormatContext)
  : list (string * string) :=
  match context !! theHAPISessionToken ≫= Get_bool with
  | Some holdSession =>
      [("keepengineopen", if holdSession : bool then "1" else "0")]
  | None => []
  end.

Definition assignments (context : PcpDynamicFileFormatContext)
  : Outcome (list (string * string) * list string) :=
  let! parms := parmsAssignments context in
  Returns
    ((parms.1
      ++ optionsAssignments context
      ++ assetNameAssignments context
      ++ timeCachingAssignments context
      ++ sessionAssignments context)%list,
     parms.2).

(** A key that one of the two dictionaries puts into the mapping: the
    name of a string-valued option, or the prefixed name of a parameter
    (the string key as [sprintf] builds it). *)
Definition suppliedByDictionaries (context : PcpDynamicFileFormatContext)
    (key : string) : Prop :=
  (exists optDict out,
      context !! theOptionDictToken = Some (V_VtDictionary optDict)
      /\ (key, V_string out) ∈ optDict)
  \/ (exists paramDict parmName data,
         context !! theParamDictToken = Some (V_VtDictionary paramDict)
         /\ (parmName, data) ∈ paramDict
         /\ (key = GEO_HDA_PARM_NUMERIC_PREFIX ++ parmName
             \/ key = c_str GEO_HDA_PARM_STRING_PREFIX ++ c_str parmName)).

(** No parameter is an array without elements: every entry that is not a
    string and that some cast accepts yields at least one element. *)
Definition everyNumericParmHasAnElement
    (context : PcpDynamicFileFormatContext) : Prop :=
  forall paramDict parmName data,
    context !! theParamDictToken = Some (V_VtDictionary paramDict) ->
    (parmName, data) ∈ paramDict ->
    Get_string data = None ->
    firstCast data <> Some [].

End Assignments.

(* ===================================================================== *)
(** ** Further vocabulary: keys, prefixes, unsupported values *)
(* ===================================================================== *)

(** The keys that the asset name, the time caching metadata and the
    session metadata are written under. *)
Definition controlKeys : list string :=
  ["assetname"; "timecachestart"; "timecacheend"; "timecacheinterval";
   "timecachemethod"; "keepengineopen"].

Section ParameterVocabulary.
Context `{GEO_HAPIUtils} `{HostLibraries}.

(** No numeric key is also a string key: the two prefixes never build the
    same key from two names. *)
Definition prefixesDoNotCollide : Prop :=
  forall numericName stringName : string,
    GEO_HDA_PARM_NUMERIC_PREFIX ++ numericName
    <> c_str GEO_HDA_PARM_STRING_PREFIX ++ c_str stringName.

(** A parameter value that is no string and that no cast accepts. *)
Definition unsupported (data : VtValue) : bool :=
  match Get_string data, firstCast data with
  | None, None => true
  | _, _ => false
  end.

(** The warning posted for a parameter entry. *)
Definition warningFor (entry : string * VtValue) : string :=
  unexpectedDataType (GetTypeName entry.2).

End ParameterVocabulary.

(** Further layers to run the functions on. *)
Module Cases.

(** A string and a numeric parameter, an unsupported one between them. *)
Definition mixedParms : VtDictionary :=
  [("file", V_string "a.bgeo");
   ("label", V_TfToken "x");
   ("scale", V_double 2%float)].
Definition withMixedParms : PcpDynamicFileFormatContext :=
  {[ theParamDictToken := V_VtDictionary mixedParms ]}.

(** Two string parameters whose names read as the same C string (the
    second holds a NUL after [file]), and a numeric parameter. *)
Definition NUL : string := String Ascii.zero EmptyString.
Definition namesWithNUL : VtDictionary :=
  [("file", V_string "a.bgeo");
   ("file" ++ NUL ++ "old", V_string "b.bgeo");
   ("scale", V_double 2%float)].
Definition withNamesWithNUL : PcpDynamicFileFormatContext :=
  {[ theParamDictToken := V_VtDictionary namesWithNUL ]}.

(** Options that carry the names of an ordinary key and of a control key,
    under an asset name and a session flag. *)
Definition crowdedOptions : VtDictionary :=
  [("assetname", V_string "from options"); ("camera", V_string "/cam1")].
Definition crowded : PcpDynamicFileFormatContext :=
  {[ theOptionDictToken := V_VtDictionary crowdedOptions;
     theAssetNameToken := V_string "Object/box";
     theHAPISessionToken := V_bool false;
     theTimeCacheModeToken := V_string "continuous";
     theTimeCacheStartToken := V_float 1%float ]}.


(** A mapping that already holds entries. *)
Definition incoming : FileFormatArguments :=
  {[ "target" := "usd"; "assetname" := "stale" ]}.

Definition compose (context : PcpDynamicFileFormatContext)
    (args0 : FileFormatArguments) : Outcome Composed :=
  Sample.compose context args0.

Definition parms (context : PcpDynamicFileFormatContext)
  : Outcome Composition :=
  composeParms (H := Sample.utils) (H0 := Sample.libs) context Sample.fresh.

End Cases.

(* ===================================================================== *)
(** ** CanRead *)
(* ===================================================================== *)

Module TfFacts.
Import Tf.

Lemma rfind_lt c s i : rfind c s = Some i -> i < String.length s.
Proof.
  revert i. induction s as [|a t IH]; intros i; simpl; [discriminate|].
  destruct (rfind c t) as [j|] eqn:E.
  - intros [= <-]. specialize (IH j eq_refl). lia.
  - destruct (Ascii.eqb a c); [intros [= <-]; lia | discriminate].
Qed.

Lemma length_prefix n s :
  n <= String.length s -> String.length (substring 0 n s) = n.
Proof.
  revert s. induction n as [|n IH]; intros [|a t]; simpl; try lia.
  intros Hn. rewrite IH; lia.
Qed.

(** The recursion of [TfGetBaseName] is on strictly shorter strings: any
    fuel above the length of the name gives the same result. *)
Lemma TfGetBaseName_rec_fuel n m s :
  String.length s < n -> String.length s < m ->
  TfGetBaseName_rec n s = TfGetBaseName_rec m s.
Proof.
  revert m s. induction n as [|n IH]; intros m s Hn Hm; [lia|].
  destruct m as [|m]; [lia|]. simpl.
  destruct s as [|a t]; [reflexivity|].
  destruct (rfind "/" (String a t)) as [i|] eqn:E; [|reflexivity].
  destruct (Nat.eqb i (String.length (String a t) - 1)); [|reflexivity].
  pose proof (rfind_lt _ _ _ E) as Hi.
  apply IH; rewrite length_prefix; lia.
Qed.

Lemma TfGetBaseName_unfold a t :
  TfGetBaseName (String a t) =
    match rfind "/" (String a t) with
    | None => String a t
    | Some i =>
        if Nat.eqb i (String.length (String a t) - 1)
        then TfGetBaseName (substring 0 i (String a t))
        else substr_from (S i) (String a t)
    end.
Proof.
  unfold TfGetBaseName at 1.
  change (TfGetBaseName_rec (S (String.length (String a t))) (String a t))
    with (match rfind "/" (String a t) with
          | None => String a t
          | Some i =>
              if Nat.eqb i (String.length (String a t) - 1)
              then TfGetBaseName_rec (String.length (String a t))
                     (substring 0 i (String a t))
              else substr_from (S i) (String a t)
          end).
  destruct (rfind "/" (String a t)) as [i|] eqn:E; [|reflexivity].
  destruct (Nat.eqb i (String.length (String a t) - 1)); [|reflexivity].
  pose proof (rfind_lt _ _ _ E) as Hi.
  apply TfGetBaseName_rec_fuel; rewrite length_prefix; lia.
Qed.

Lemma append_cons a s1 s2 : String a s1 ++ s2 = String a (s1 ++ s2).
Proof. reflexivity. Qed.

Lemma string_app_assoc_tf (a b c : string) : (a ++ b) ++ c = a ++ b ++ c.
Proof.
  induction a as [|x a IH]; [reflexivity|].
  rewrite !append_cons. now rewrite IH.
Qed.

Lemma rfind_app_absent c s1 s2 :
  rfind c s2 = None -> rfind c (s1 ++ s2) = rfind c s1.
Proof.
  intros Hnone. induction s1 as [|a t IH].
  - exact Hnone.
  - rewrite append_cons. cbn [rfind]. now rewrite IH.
Qed.

Lemma rfind_app_present c s1 s2 i :
  rfind c s2 = Some i -> rfind c (s1 ++ s2) = Some (String.length s1 + i).
Proof.
  intros Hsome. induction s1 as [|a t IH].
  - exact Hsome.
  - rewrite append_cons. cbn [rfind]. now rewrite IH.
Qed.

Lemma substring_whole s : substring 0 (String.length s) s = s.
Proof. induction s as [|a t IH]; cbn; [reflexivity | now rewrite IH]. Qed.

Lemma substring_prefix s1 s2 : substring 0 (String.length s1) (s1 ++ s2) = s1.
Proof.
  induction s1 as [|a t IH]; [now destruct s2|].
  rewrite append_cons. cbn. now rewrite IH.
Qed.

Lemma substring_suffix s1 s2 n :
  substring (String.length s1) n (s1 ++ s2) = substring 0 n s2.
Proof.
  induction s1 as [|a t IH]; [reflexivity|].
  rewrite append_cons. cbn. exact IH.
Qed.

Lemma length_append s1 s2 :
  String.length (s1 ++ s2) = String.length s1 + String.length s2.
Proof.
  induction s1 as [|a t IH]; [reflexivity|].
  rewrite append_cons. cbn. now rewrite IH.
Qed.

Lemma TfGetBaseName_plain s : rfind "/" s = None -> TfGetBaseName s = s.
Proof.
  intros Hnone. destruct s as [|a t]; [reflexivity|].
  rewrite TfGetBaseName_unfold. now rewrite Hnone.
Qed.

(** The extension of a plain file name [base.ext]: [base] is not empty and
    has no directory delimiter, [ext] has neither delimiter nor dot. *)
Lemma TfGetExtension_plain base ext :
  base <> "" ->
  rfind "/" base = None -> rfind "/" ext = None -> rfind "." ext = None ->
  TfGetExtension (base ++ "." ++ ext) = ext.
Proof.
  intros Hbase Hb He Hdot.
  assert (rfind "." (base ++ "." ++ ext) = Some (String.length base + 0))
    as Hlast.
  { apply rfind_app_present.
    change ("." ++ ext) with (String "." ext). cbn [rfind].
    now rewrite Hdot. }
  assert (TfGetBaseName (base ++ "." ++ ext) = base ++ "." ++ ext) as Hname.
  { apply TfGetBaseName_plain. rewrite rfind_app_absent; [exact Hb|].
    change ("." ++ ext) with (String "." ext). cbn [rfind].
    now rewrite He. }
  unfold TfGetExtension. rewrite Hname.
  unfold TfStringGetBeforeSuffix, TfStringGetSuffix. rewrite Hlast.
  rewrite Nat.add_0_r, substring_prefix.
  destruct base as [|a t]; [contradiction|]. rewrite append_cons.
  unfold substr_from. rewrite <- append_cons.
  replace (S (String.length (String a t)))
    with (String.length (String a t ++ ".")) by (rewrite length_append; cbn; lia).
  rewrite <- string_app_assoc_tf, substring_suffix.
  rewrite !length_append. cbn [String.length].
  match goal with
  | |- substring 0 ?n ext = ext =>
      replace n with (String.length ext) by lia
  end.
  apply substring_whole.
Qed.

End TfFacts.

Lemma elem_of_theExtensions ext :
  ext ∈ theExtensions <->
  ext = "hda" \/ ext = "otl" \/ ext = "hdanc" \/ ext = "otlnc"
  \/ ext = "hdalc" \/ ext = "otllc".
Proof.
  unfold theExtensions. rewrite elem_of_list_to_set.
  rewrite !elem_of_cons, elem_of_nil. tauto.
Qed.

(** C8. [CanRead] answers true exactly when the extension of the path
    ([TfGetExtension]) is one of hda, otl, hdanc, otlnc, hdalc, otllc,
    compared as written (no case folding); for a plain file name base.ext
    that extension is ext; the answer is true for asset.hda and
    asset.otlnc, false for asset.usd and for asset.HDA. *)
Theorem CanRead_iff_known_extension :
  (forall filePath : string,
      CanRead filePath = true <->
      let ext := Tf.TfGetExtension filePath in
      ext = "hda" \/ ext = "otl" \/ ext = "hdanc" \/ ext = "otlnc"
      \/ ext = "hdalc" \/ ext = "otllc")
  /\ (forall base ext : string,
        base <> "" ->
        Tf.rfind "/" base = None -> Tf.rfind "/" ext = None ->
        Tf.rfind "." ext = None ->
        Tf.TfGetExtension (base ++ "." ++ ext) = ext)
  /\ CanRead "asset.hda" = true
  /\ CanRead "asset.otlnc" = true
  /\ CanRead "asset.usd" = false
  /\ CanRead "asset.HDA" = false.
Proof.
  split; [|split].
  - intros filePath. unfold CanRead. rewrite bool_decide_eq_true.
    apply elem_of_theExtensions.
  - apply TfFacts.TfGetExtension_plain.
  - repeat split; vm_compute; reflexivity.
Qed.

(* ===================================================================== *)
(** ** CanFieldChangeAffectFileFormatArguments *)
(* ===================================================================== *)

Lemma rangeSettingTokens_test field :
  bool_decide (field = theTimeCacheStartToken)
  || bool_decide (field = theTimeCacheEndToken)
  || bool_decide (field = theTimeCacheIntervalToken) = true
  <-> field ∈ rangeSettingTokens.
Proof.
  unfold rangeSettingTokens.
  rewrite !orb_true_iff, !bool_decide_eq_true, !elem_of_cons, elem_of_nil.
  tauto.
Qed.

(** C1. For each of the three range settings (start, end, interval) and all
    old and new values: when the dependency context data holds a time
    caching mode other than Range, the answer is false, whether or not the
    old and the new value differ. *)
Theorem range_setting_inert_outside_range
    (field : TfToken) (oldValue newValue : VtValue)
    (mode : GEO_HAPITimeCaching) :
  field ∈ rangeSettingTokens ->
  mode <> GEO_HAPI_TIME_CACHING_RANGE ->
  CanFieldChangeAffectFileFormatArguments field oldValue newValue
    (V_GEO_HAPITimeCaching mode) = false.
Proof.
  intros Hf Hm. unfold CanFieldChangeAffectFileFormatArguments.
  apply rangeSettingTokens_test in Hf. rewrite Hf. simpl.
  rewrite bool_decide_eq_false_2 by exact Hm. reflexivity.
Qed.

Lemma range_setting_inert_outside_range_witness :
  CanFieldChangeAffectFileFormatArguments theTimeCacheEndToken
    (V_float 1%float) (V_float 24%float)
    (V_GEO_HAPITimeCaching GEO_HAPI_TIME_CACHING_CONTINUOUS) = false.
Proof.
  apply range_setting_inert_outside_range.
  - unfold rangeSettingTokens. apply elem_of_cons. right.
    apply elem_of_cons. left. reflexivity.
  - discriminate.
Defined.

(** C2. For every field that is not one of the three range settings, and
    for the three range settings when the dependency context data holds the
    Range mode, the answer is true exactly when the old value is unequal to
    the new one under the comparison of [VtValue]. *)
Theorem other_field_change_affects_iff_unequal
    (field : TfToken) (oldValue newValue dependencyContextData : VtValue) :
  field ∉ rangeSettingTokens
  \/ dependencyContextData
     = V_GEO_HAPITimeCaching GEO_HAPI_TIME_CACHING_RANGE ->
  CanFieldChangeAffectFileFormatArguments field oldValue newValue
    dependencyContextData = negb (VtValue_eqb oldValue newValue)
  /\ (CanFieldChangeAffectFileFormatArguments field oldValue newValue
        dependencyContextData = true
      <-> VtValue_eqb oldValue newValue = false).
Proof.
  intros Hcase.
  assert (CanFieldChangeAffectFileFormatArguments field oldValue newValue
            dependencyContextData = negb (VtValue_eqb oldValue newValue))
    as Heq.
  { unfold CanFieldChangeAffectFileFormatArguments, VtValue_neb.
    destruct Hcase as [Hf | ->].
    - rewrite <- rangeSettingTokens_test in Hf.
      apply not_true_is_false in Hf. rewrite Hf. reflexivity.
    - simpl. destruct (_ || _); reflexivity. }
  split; [exact Heq|]. rewrite Heq. apply negb_true_iff.
Qed.

Lemma other_field_change_affects_iff_unequal_witness :
  CanFieldChangeAffectFileFormatArguments theTimeCacheStartToken
    (V_float 1%float) (V_float 2%float)
    (V_GEO_HAPITimeCaching GEO_HAPI_TIME_CACHING_RANGE) = true
  /\ CanFieldChangeAffectFileFormatArguments theAssetNameToken
       (V_string "box") (V_string "box") V_empty = false.
Proof.
  split.
  - apply (other_field_change_affects_iff_unequal theTimeCacheStartToken).
    + right. reflexivity.
    + reflexivity.
  - assert (theAssetNameToken ∉ rangeSettingTokens) as Hf.
    { intros Hin. apply rangeSettingTokens_test in Hin. discriminate Hin. }
    rewrite (proj1 (other_field_change_affects_iff_unequal theAssetNameToken
                      (V_string "box") (V_string "box") V_empty
                      (or_introl Hf))).
    reflexivity.
Defined.

(* ===================================================================== *)
(** ** Read *)
(* ===================================================================== *)

(** C7. When [Open] fails, [Read] answers false and the layer is returned
    as it was, its data included; the data is installed only when [Open]
    succeeds, and then [Read] answers true and the layer holds the object
    that [Open] filled in. *)
Theorem Read_installs_data_only_when_opened
    (SdfAbstractData : Type)
    (New : FileFormatArguments -> SdfAbstractData)
    (Open : SdfAbstractData -> string -> bool * SdfAbstractData)
    (layer : SdfLayer SdfAbstractData) (resolvedPath : string)
    (metadataOnly : bool) :
  let opened := Open (New (GetFileFormatArguments layer)) resolvedPath in
  let result := Read SdfAbstractData New Open layer resolvedPath metadataOnly in
  result.1 = opened.1
  /\ (if opened.1
      then layerData result.2 = opened.2
           /\ GetFileFormatArguments result.2 = GetFileFormatArguments layer
      else result.2 = layer).
Proof.
  intros opened result. subst opened result. unfold Read.
  destruct (Open _ _) as [[|] data]; simpl; auto.
Qed.

(* ===================================================================== *)
(** ** Numeric parameters *)
(* ===================================================================== *)

Lemma string_app_assoc (a b c : string) : (a ++ b) ++ c = a ++ b ++ c.
Proof.
  induction a as [|x a IH]; [reflexivity|].
  change (String x ((a ++ b) ++ c) = String x (a ++ b ++ c)).
  now rewrite IH.
Qed.

Lemma string_app_empty (a : string) : a ++ "" = a.
Proof.
  induction a as [|x a IH]; [reflexivity|].
  change (String x (a ++ "") = String x a). now rewrite IH.
Qed.

Section NodeParmFacts.
Context `{GEO_HAPIUtils} `{HostLibraries}.

Lemma joined_appended {T} (fmt : T -> string) x rest :
  joined GEO_HDA_PARM_SEPARATOR (fmt <$> (x :: rest))
  = fmt x ++ appended fmt rest.
Proof.
  revert x. induction rest as [|y rest IH]; intros x; simpl.
  - symmetry. apply string_app_empty.
  - f_equal. f_equal. exact (IH y).
Qed.

Lemma to_int_le n : (0 <= n)%Z -> (to_int n <= n)%Z.
Proof.
  intros Hn. unfold to_int.
  pose proof (Z.mod_le (n + 2 ^ 31) (2 ^ 32)) as Hle. lia.
Qed.

(** The loop appends the elements it is asked for, as long as they are
    inside the array. *)
Lemma appendElements_prefix {T} (fmt : T -> string) (before rest : list T)
    (n : nat) (buf : string) :
  n <= length rest ->
  appendElements fmt (before ++ rest) (length before) n buf
  = Returns (buf ++ appended fmt (take n rest)).
Proof.
  revert before rest buf.
  induction n as [|n IH]; intros before rest buf Hn.
  - cbn. now rewrite string_app_empty.
  - destruct rest as [|x rest]; [cbn in Hn; lia|].
    cbn [appendElements]. rewrite list_lookup_middle by reflexivity.
    replace (before ++ x :: rest)%list with ((before ++ [x]) ++ rest)%list
      by (rewrite <- app_assoc; reflexivity).
    replace (S (length before)) with (length (before ++ [x])%list)
      by (rewrite length_app; simpl; lia).
    rewrite IH by (cbn in Hn; lia).
    cbn [take firstn appended]. f_equal. rewrite !string_app_assoc.
    reflexivity.
Qed.

(** With at least one element and a count within the array, [addToArgs]
    assigns the first element and the elements below the count, joined, to
    the prefixed key. *)
Lemma addToArgs_elements {T} (fmt : T -> string) parmName x rest count e :
  (count <= Z.of_nat (length (x :: rest)))%Z ->
  addToArgs fmt parmName (x :: rest) count e
  = let key := GEO_HDA_PARM_NUMERIC_PREFIX ++ parmName in
    let value :=
      joined GEO_HDA_PARM_SEPARATOR
        (fmt <$> (x :: take (Z.to_nat (count - 1)) rest)) in
    Returns {| np_args := <[key := value]> (np_args e);
               parmBuf := key;
               valBuf := value;
               np_warnings := np_warnings e |}.
Proof.
  intros Hcount. unfold addToArgs. cbn [lookup list_lookup].
  change (x :: rest) with ([x] ++ rest)%list at 1.
  change 1 with (length [x]) at 1.
  rewrite appendElements_prefix by (cbn [length] in Hcount; lia).
  cbn [Outcome_bind]. rewrite joined_appended. reflexivity.
Qed.

Lemma elementsReached_cons {T} (x : T) (vals : list T) :
  elementsReached (x :: vals)
  = x :: take (Z.to_nat (to_int (Z.of_nat (length (x :: vals))) - 1)) vals.
Proof.
  unfold elementsReached.
  replace (Z.to_nat (Z.max 1 (to_int (Z.of_nat (length (x :: vals))))))
    with (S (Z.to_nat (to_int (Z.of_nat (length (x :: vals))) - 1)))
    by lia.
  reflexivity.
Qed.

(** An array is written whole when its size is an [int]. *)
Lemma elementsReached_all {T} (vals : list T) :
  (Z.of_nat (length vals) < 2 ^ 31)%Z -> elementsReached vals = vals.
Proof.
  intros Hsize. unfold elementsReached, to_int.
  rewrite Z.mod_small by lia. apply firstn_all2. lia.
Qed.

Lemma addToArgs_array {T} (fmt : T -> string) parmName x vals e :
  addToArgs fmt parmName (x :: vals)
    (to_int (Z.of_nat (length (x :: vals)))) e
  = let key := GEO_HDA_PARM_NUMERIC_PREFIX ++ parmName in
    let value :=
      joined GEO_HDA_PARM_SEPARATOR (fmt <$> elementsReached (x :: vals)) in
    Returns {| np_args := <[key := value]> (np_args e);
               parmBuf := key;
               valBuf := value;
               np_warnings := np_warnings e |}.
Proof.
  rewrite elementsReached_cons. apply addToArgs_elements.
  apply to_int_le. lia.
Qed.

(** The numeric branch, case by case: the casts are tried as scalar,
    2-, 3-, 4-vector, double array, integer array; the first that
    succeeds with at least one element assigns the joined elements to the
    prefixed key; one that succeeds with an empty array has [data[0]]
    read outside the array; when none succeeds a warning is posted and
    nothing is assigned. *)
Lemma addNumericNodeParmToFormatArgs_cases parmName parmData e :
  addNumericNodeParmToFormatArgs parmName parmData e =
    match firstCast parmData with
    | Some [] => OutOfBounds
    | Some elements =>
        let key := GEO_HDA_PARM_NUMERIC_PREFIX ++ parmName in
        let value := joined GEO_HDA_PARM_SEPARATOR elements in
        Returns {| np_args := <[key := value]> (np_args e);
                   parmBuf := key;
                   valBuf := value;
                   np_warnings := np_warnings e |}
    | None =>
        Returns {| np_args := np_args e;
                   parmBuf := parmBuf e;
                   valBuf := valBuf e;
                   np_warnings :=
                     np_warnings e
                       ++ [unexpectedDataType (GetTypeName parmData)] |}
    end.
Proof.
  unfold addNumericNodeParmToFormatArgs, firstCast.
  destruct (Cast_double parmData) as [val|].
  { rewrite addToArgs_elements by (cbn; lia). reflexivity. }
  destruct (Cast_GfVec2d parmData) as [vec|].
  { unfold GfVec2d_GetArray.
    rewrite addToArgs_elements by (cbn; lia). reflexivity. }
  destruct (Cast_GfVec3d parmData) as [vec|].
  { unfold GfVec3d_GetArray.
    rewrite addToArgs_elements by (cbn; lia). reflexivity. }
  destruct (Cast_GfVec4d parmData) as [vec|].
  { unfold GfVec4d_GetArray.
    rewrite addToArgs_elements by (cbn; lia). reflexivity. }
  destruct (Cast_VtDoubleArray parmData) as [[|x vals]|].
  { reflexivity. }
  { rewrite addToArgs_array, elementsReached_cons. reflexivity. }
  destruct (Cast_VtInt64Array parmData) as [[|x vals]|].
  { reflexivity. }
  { rewrite addToArgs_array, elementsReached_cons. reflexivity. }
  reflexivity.
Qed.

End NodeParmFacts.

(* ===================================================================== *)
(** ** The composition as a sequence of assignments *)
(* ===================================================================== *)

Lemma assignAll_app w1 w2 (a : FileFormatArguments) :
  assignAll (w1 ++ w2) a = assignAll w2 (assignAll w1 a).
Proof. unfold assignAll. apply fold_left_app. Qed.

(** After a sequence of assignments a key holds what was assigned to it
    last, or what it held before when nothing was assigned to it. *)
Lemma lookup_assignAll w (a : FileFormatArguments) (k : string) :
  assignAll w a !! k
  = match last (filter (fun kv => kv.1 = k) w) with
    | Some kv => Some kv.2
    | None => a !! k
    end.
Proof.
  revert a. induction w as [|[k' v] w IH] using rev_ind; intros a.
  - reflexivity.
  - rewrite assignAll_app, filter_app.
    change (assignAll [(k', v)] (assignAll w a))
      with (<[k' := v]> (assignAll w a)).
    rewrite filter_cons, filter_nil. cbn [fst].
    destruct (decide (k' = k)) as [->|Hne].
    + rewrite last_snoc, lookup_insert_eq. reflexivity.
    + rewrite app_nil_r, lookup_insert_ne by exact Hne. apply IH.
Qed.


Lemma lookup_assignAll_not_assigned w (a : FileFormatArguments) k :
  k ∉ w.*1 -> assignAll w a !! k = a !! k.
Proof.
  intros Hk. rewrite lookup_assignAll.
  destruct (last _) as [kv|] eqn:E; [|reflexivity].
  apply last_Some_elem_of in E. apply list_elem_of_filter in E as [E1 E2].
  exfalso. apply Hk. apply list_elem_of_fmap. exists kv. auto.
Qed.

Section ComposeFacts.
Context `{GEO_HAPIUtils} `{HostLibraries}.

Lemma addNodeParm_assignment parmName data e :
  Outcome_map (fun e' => (np_args e', np_warnings e'))
    (addNodeParm parmName data e)
  = Outcome_map
      (fun r => (assignAll r.1 (np_args e), (np_warnings e ++ r.2)%list))
      (parmAssignment (parmName, data)).
Proof.
  unfold addNodeParm, parmAssignment. cbn [fst snd].
  destruct (Get_string data) as [strData|].
  - cbn. now rewrite app_nil_r.
  - rewrite addNumericNodeParmToFormatArgs_cases.
    destruct (firstCast data) as [[|x elements]|]; cbn;
      rewrite ?app_nil_r; reflexivity.
Qed.

Lemma forEachParm_assignments paramDict e :
  Outcome_map (fun e' => (np_args e', np_warnings e'))
    (forEachParm paramDict e)
  = Outcome_map
      (fun r => (assignAll r.1 (np_args e), (np_warnings e ++ r.2)%list))
      (parmAssignments paramDict).
Proof.
  revert e. induction paramDict as [|[parmName data] rest IH]; intros e.
  - cbn. now rewrite app_nil_r.
  - cbn [forEachParm parmAssignments].
    pose proof (addNodeParm_assignment parmName data e) as Hstep.
    destruct (addNodeParm parmName data e) as [e'|];
      destruct (parmAssignment (parmName, data)) as [one|];
      cbn in Hstep; try discriminate; [|reflexivity].
    injection Hstep as Hargs Hwarn.
    cbn [Outcome_bind]. rewrite IH.
    destruct (parmAssignments rest) as [more|]; [|reflexivity].
    cbn. rewrite Hargs, Hwarn, assignAll_app, app_assoc. reflexivity.
Qed.

Lemma composeParms_assignments context c :
  Outcome_map (fun c' => (args c', warnings c')) (composeParms context c)
  = Outcome_map
      (fun r => (assignAll r.1 (args c), (warnings c ++ r.2)%list))
      (parmsAssignments context).
Proof.
  unfold composeParms, parmsAssignments, ComposeValue.
  destruct (context !! theParamDictToken) as [v|]; cbn;
    [|now rewrite app_nil_r].
  destruct (Get_VtDictionary v) as [paramDict|]; cbn;
    [|now rewrite app_nil_r].
  pose proof (forEachParm_assignments paramDict
                {| np_args := args c; parmBuf := ""; valBuf := "";
                   np_warnings := warnings c |}) as Hloop.
  cbn [np_args np_warnings] in Hloop.
  destruct (forEachParm paramDict _) as [e'|];
    destruct (parmAssignments paramDict) as [r|];
    cbn in Hloop |- *; try discriminate; [|reflexivity].
  injection Hloop as -> ->. reflexivity.
Qed.

Lemma fold_addOption optDict (a : FileFormatArguments) :
  fold_left addOption optDict a = assignAll (optionAssignments optDict) a.
Proof.
  revert a. induction optDict as [|[optName data] rest IH]; intros a.
  - reflexivity.
  - cbn [fold_left]. rewrite IH. unfold optionAssignments, addOption.
    cbn [omap list_omap fst snd].
    destruct (Get_string data); reflexivity.
Qed.

Lemma composeOptions_assignments context c :
  args (composeOptions context c)
  = assignAll (optionsAssignments context) (args c)
  /\ warnings (composeOptions context c) = warnings c.
Proof.
  unfold composeOptions, optionsAssignments, ComposeValue.
  destruct (context !! theOptionDictToken) as [v|]; cbn; [|done].
  destruct (Get_VtDictionary v) as [optDict|]; cbn; [|done].
  split; [apply fold_addOption | reflexivity].
Qed.

Lemma composeAssetName_assignments context c :
  args (composeAssetName context c)
  = assignAll (assetNameAssignments context) (args c)
  /\ warnings (composeAssetName context c) = warnings c.
Proof.
  unfold composeAssetName, assetNameAssignments, ComposeValue.
  destruct (context !! theAssetNameToken) as [v|]; cbn; [|done].
  destruct (Get_string v); done.
Qed.

Lemma composeRangeSetting_assignments context field key c :
  args (composeRangeSetting context field key c)
  = assignAll (rangeAssignment context field key) (args c)
  /\ warnings (composeRangeSetting context field key c) = warnings c.
Proof.
  unfold composeRangeSetting, rangeAssignment, composedFloat, ComposeValue.
  destruct (context !! field) as [v|]; cbn; [|done].
  destruct (Get_float v); done.
Qed.

Lemma composeTimeCaching_assignments context c :
  args (composeTimeCaching context c).1
  = assignAll (timeCachingAssignments context) (args c)
  /\ warnings (composeTimeCaching context c).1 = warnings c
  /\ (composeTimeCaching context c).2 = cacheContextOf context.
Proof.
  unfold composeTimeCaching, timeCachingAssignments, cacheContextOf,
    composedMode, ComposeValue.
  destruct (context !! theTimeCacheModeToken) as [v|]; cbn; [|done].
  destruct (Get_string v) as [mode|]; cbn; [|done].
  destruct (decide (mode = "none")) as [->|Hnone]; [done|].
  destruct (decide (mode = "continuous")) as [->|Hcont]; [done|].
  destruct (decide (mode = "range")) as [->|Hrange]; [|done].
  cbn [fst snd setArg args warnings].
  rewrite !assignAll_app.
  repeat match goal with
  | |- context [composeRangeSetting context ?f ?k ?c'] =>
      destruct (composeRangeSetting_assignments context f k c')
        as [-> ->]
  end.
  done.
Qed.

Lemma composeSession_assignments context c :
  args (composeSession context c)
  = assignAll (sessionAssignments context) (args c)
  /\ warnings (composeSession context c) = warnings c.
Proof.
  unfold composeSession, sessionAssignments, ComposeValue.
  destruct (context !! theHAPISessionToken) as [v|]; cbn; [|done].
  destruct (Get_bool v); done.
Qed.

(** The embedded function makes exactly the assignments of
    [assignments], on whatever mapping it is handed; the dependency
    context data and the warnings do not depend on that mapping. *)
Lemma Compose_assignments assetPath context args0 :
  ComposeFieldsForFileFormatArguments assetPath context args0
  = Outcome_map
      (fun r => {| out_args := assignAll r.1 args0;
                   out_dependencyContextData :=
                     V_GEO_HAPITimeCaching (cacheContextOf context);
                   out_warnings := r.2 |})
      (assignments context).
Proof.
  unfold ComposeFieldsForFileFormatArguments, assignments.
  pose proof (composeParms_assignments context
                {| args := args0; contextVal := V_empty; warnings := [] |})
    as Hparms.
  destruct (composeParms context _) as [c1|];
    destruct (parmsAssignments context) as [parms|];
    cbn in Hparms; try discriminate; [|reflexivity].
  injection Hparms as Hargs Hwarn. cbn [Outcome_bind Outcome_map].
  destruct (composeTimeCaching context
              (composeAssetName context (composeOptions context c1)))
    as [c4 cacheContext] eqn:Htc.
  pose proof (composeTimeCaching_assignments context
                (composeAssetName context (composeOptions context c1)))
    as (Ha4 & Hw4 & Hcc).
  rewrite Htc in Ha4, Hw4, Hcc. cbn [fst snd] in Ha4, Hw4, Hcc.
  destruct (composeSession_assignments context c4) as [Ha5 Hw5].
  destruct (composeAssetName_assignments context
              (composeOptions context c1)) as [Ha3 Hw3].
  destruct (composeOptions_assignments context c1) as [Ha2 Hw2].
  rewrite Ha5, Hw5, Ha4, Hw4, Ha3, Hw3, Ha2, Hw2, Hargs, Hwarn, Hcc.
  cbn [fst snd]. rewrite !assignAll_app. reflexivity.
Qed.

End ComposeFacts.

(* ===================================================================== *)
(** ** Which keys the parts of the composition assign *)
(* ===================================================================== *)

Lemma Get_string_Some v out : Get_string v = Some out -> v = V_string out.
Proof. destruct v; cbn; congruence. Qed.

Lemma range_setting_cases field key :
  (field, key) ∈ rangeSettings ->
  (field = theTimeCacheStartToken /\ key = "timecachestart")
  \/ (field = theTimeCacheEndToken /\ key = "timecacheend")
  \/ (field = theTimeCacheIntervalToken /\ key = "timecacheinterval").
Proof.
  unfold rangeSettings. rewrite !elem_of_cons, elem_of_nil.
  intros [E | [E | [E | []]]]; injection E as -> ->; tauto.
Qed.

Lemma range_key_cases key :
  key ∈ rangeSettings.*2 ->
  key = "timecachestart" \/ key = "timecacheend"
  \/ key = "timecacheinterval".
Proof.
  cbn. rewrite !elem_of_cons, elem_of_nil. tauto.
Qed.

Lemma lookup_withoutRangeSettings (context : PcpDynamicFileFormatContext)
    (field : TfToken) :
  field ∉ rangeSettingTokens ->
  withoutRangeSettings context !! field = context !! field.
Proof.
  unfold rangeSettingTokens, withoutRangeSettings.
  rewrite !not_elem_of_cons. intros (H1 & H2 & H3 & _).
  rewrite !lookup_delete_ne by congruence. reflexivity.
Qed.

Ltac lookup_args :=
  repeat first
    [ rewrite lookup_insert_eq
    | rewrite lookup_insert_ne by discriminate ].

Section AssignedKeys.
Context `{GEO_HAPIUtils} `{HostLibraries}.

Lemma parmAssignment_keys entry one key :
  parmAssignment entry = Returns one ->
  key ∈ one.1.*1 ->
  key = GEO_HDA_PARM_NUMERIC_PREFIX ++ entry.1
  \/ key = c_str GEO_HDA_PARM_STRING_PREFIX ++ c_str entry.1.
Proof.
  unfold parmAssignment.
  destruct (Get_string entry.2) as [strData|].
  - intros [= <-]. cbn. rewrite list_elem_of_singleton. tauto.
  - destruct (firstCast entry.2) as [[|x elements]|]; [discriminate| |];
      intros [= <-]; cbn; [|rewrite elem_of_nil; tauto].
    rewrite list_elem_of_singleton. tauto.
Qed.

Lemma parmAssignments_keys paramDict parms key :
  parmAssignments paramDict = Returns parms ->
  key ∈ parms.1.*1 ->
  exists parmName data,
    (parmName, data) ∈ paramDict
    /\ (key = GEO_HDA_PARM_NUMERIC_PREFIX ++ parmName
        \/ key = c_str GEO_HDA_PARM_STRING_PREFIX ++ c_str parmName).
Proof.
  revert parms. induction paramDict as [|entry rest IH]; intros parms.
  - intros [= <-]. cbn. rewrite elem_of_nil. tauto.
  - cbn [parmAssignments].
    destruct (parmAssignment entry) as [one|] eqn:Hone; [|discriminate].
    destruct (parmAssignments rest) as [more|]; [|discriminate].
    intros [= <-]. cbn [fst]. rewrite fmap_app, elem_of_app.
    intros [Hin | Hin].
    + exists entry.1, entry.2. split.
      * destruct entry. apply elem_of_cons. now left.
      * eapply parmAssignment_keys; eauto.
    + destruct (IH more eq_refl Hin) as (n & d & Hnd & Hk).
      exists n, d. split; [apply elem_of_cons; now right | exact Hk].
Qed.

Lemma optionAssignments_keys optDict key :
  key ∈ (optionAssignments optDict).*1 ->
  exists out, (key, V_string out) ∈ optDict.
Proof.
  rewrite list_elem_of_fmap. intros ([k out] & -> & Hin).
  unfold optionAssignments in Hin. apply list_elem_of_omap in Hin.
  destruct Hin as ([optName data] & Hin & Hsome). cbn in Hsome.
  destruct (Get_string data) as [out'|] eqn:Hdata; [|discriminate].
  injection Hsome as -> ->. apply Get_string_Some in Hdata. subst data.
  exists out. exact Hin.
Qed.

Lemma not_supplied_parms context key parms :
  ~ suppliedByDictionaries context key ->
  parmsAssignments context = Returns parms ->
  key ∉ parms.1.*1.
Proof.
  intros Hnot Hparms Hin. apply Hnot. right.
  unfold parmsAssignments in Hparms.
  destruct (context !! theParamDictToken) as [v|] eqn:Hv; cbn in Hparms.
  - destruct v; cbn in Hparms;
      try (injection Hparms as <-; cbn in Hin;
           apply elem_of_nil in Hin; contradiction).
    destruct (parmAssignments_keys _ _ _ Hparms Hin) as (n & dt & Hnd & Hk).
    eauto 6.
  - injection Hparms as <-. cbn in Hin. apply elem_of_nil in Hin.
    contradiction.
Qed.

Lemma not_supplied_options context key :
  ~ suppliedByDictionaries context key ->
  key ∉ (optionsAssignments context).*1.
Proof.
  intros Hnot Hin. apply Hnot. left.
  unfold optionsAssignments in Hin.
  destruct (context !! theOptionDictToken) as [v|] eqn:Hv; cbn in Hin;
    [|apply elem_of_nil in Hin; contradiction].
  destruct v; cbn in Hin; try (apply elem_of_nil in Hin; contradiction).
  destruct (optionAssignments_keys _ _ Hin) as (out & Hout). eauto.
Qed.

Lemma lookup_assetName context (a : FileFormatArguments) key :
  key <> "assetname" ->
  assignAll (assetNameAssignments context) a !! key = a !! key.
Proof.
  intros Hk. unfold assetNameAssignments.
  destruct (_ ≫= _); cbn; [|reflexivity].
  now rewrite lookup_insert_ne by congruence.
Qed.

Lemma lookup_session context (a : FileFormatArguments) key :
  key <> "keepengineopen" ->
  assignAll (sessionAssignments context) a !! key = a !! key.
Proof.
  intros Hk. unfold sessionAssignments.
  destruct (_ ≫= _); cbn; [|reflexivity].
  now rewrite lookup_insert_ne by congruence.
Qed.

Lemma timeCachingAssignments_no_mode context :
  composedMode context = None -> timeCachingAssignments context = [].
Proof. unfold timeCachingAssignments. now intros ->. Qed.

Lemma timeCachingAssignments_other_mode context mode :
  composedMode context = Some mode -> mode <> "range" ->
  timeCachingAssignments context = [("timecachemethod", mode)].
Proof.
  unfold timeCachingAssignments. intros -> Hne.
  destruct (decide (mode = "range")); [contradiction | reflexivity].
Qed.

Lemma lookup_timeCaching_method context (a : FileFormatArguments) mode :
  composedMode context = Some mode ->
  assignAll (timeCachingAssignments context) a !! "timecachemethod"
  = Some mode.
Proof.
  unfold timeCachingAssignments. intros ->.
  rewrite assignAll_app. cbn. apply lookup_insert_eq.
Qed.

Lemma lookup_timeCaching_range context (a : FileFormatArguments) field key :
  (field, key) ∈ rangeSettings ->
  composedMode context = Some "range" ->
  assignAll (timeCachingAssignments context) a !! key
  = match composedFloat context field with
    | Some out => Some (TfStringify out)
    | None => a !! key
    end.
Proof.
  intros Hin Hmode. unfold timeCachingAssignments. rewrite Hmode.
  destruct (decide ("range" = "range")) as [_|Hne]; [|contradiction].
  unfold rangeAssignment, assignAll.
  destruct (range_setting_cases _ _ Hin) as [[-> ->] | [[-> ->] | [-> ->]]];
    destruct (composedFloat context theTimeCacheStartToken);
    destruct (composedFloat context theTimeCacheEndToken);
    destruct (composedFloat context theTimeCacheIntervalToken);
    cbn [fold_left app]; unfold assign; cbn [fst snd];
    lookup_args; reflexivity.
Qed.

Lemma lookup_timeCaching_outside_range context (a : FileFormatArguments)
    key :
  composedMode context <> Some "range" ->
  key ∈ rangeSettings.*2 ->
  assignAll (timeCachingAssignments context) a !! key = a !! key.
Proof.
  intros Hmode Hkey.
  destruct (composedMode context) as [mode|] eqn:E.
  - rewrite (timeCachingAssignments_other_mode _ mode E) by congruence.
    cbn. destruct (range_key_cases _ Hkey) as [-> | [-> | ->]];
      now lookup_args.
  - now rewrite timeCachingAssignments_no_mode.
Qed.

(** What a returning call returns. *)
Lemma Compose_Returns assetPath context args0 r :
  ComposeFieldsForFileFormatArguments assetPath context args0 = Returns r ->
  exists parms,
    parmsAssignments context = Returns parms
    /\ out_args r
       = assignAll (sessionAssignments context)
           (assignAll (timeCachingAssignments context)
              (assignAll (assetNameAssignments context)
                 (assignAll (optionsAssignments context)
                    (assignAll parms.1 args0))))
    /\ out_dependencyContextData r
       = V_GEO_HAPITimeCaching (cacheContextOf context)
    /\ out_warnings r = parms.2.
Proof.
  rewrite Compose_assignments. unfold assignments.
  destruct (parmsAssignments context) as [parms|]; [|discriminate].
  cbn. intros [= <-]. exists parms. cbn. rewrite !assignAll_app. auto.
Qed.

Lemma parmAssignments_returns paramDict :
  (forall parmName data,
      (parmName, data) ∈ paramDict ->
      Get_string data = None -> firstCast data <> Some []) ->
  exists parms, parmAssignments paramDict = Returns parms.
Proof.
  induction paramDict as [|[parmName data] rest IH]; intros Hall.
  - eexists. reflexivity.
  - cbn [parmAssignments].
    assert (exists one, parmAssignment (parmName, data) = Returns one)
      as [one ->].
    { unfold parmAssignment. cbn [fst snd].
      destruct (Get_string data) as [strData|] eqn:Hstr; [eauto|].
      pose proof (Hall parmName data
                    ltac:(apply elem_of_cons; now left) Hstr) as Hne.
      destruct (firstCast data) as [[|x elements]|]; [congruence | eauto..]. }
    destruct IH as [more ->].
    { intros n d Hin. apply (Hall n). apply elem_of_cons. now right. }
    eexists. reflexivity.
Qed.

(** The call returns whenever no parameter is an array without
    elements. *)
Lemma Compose_returns assetPath context args0 :
  everyNumericParmHasAnElement context ->
  exists r,
    ComposeFieldsForFileFormatArguments assetPath context args0 = Returns r.
Proof.
  intros Hall. rewrite Compose_assignments.
  unfold assignments, parmsAssignments.
  destruct (context !! theParamDictToken) as [v|] eqn:Hv; cbn;
    [|eexists; reflexivity].
  destruct v; cbn; try (eexists; reflexivity).
  destruct (parmAssignments_returns d) as [parms ->].
  { intros n dt Hin. now apply (Hall d n dt). }
  eexists. reflexivity.
Qed.

(** A key that the mapping did not hold, that no dictionary supplies and
    that the time caching part does not assign is not in the result. *)
Lemma Compose_key_absent assetPath context (args0 : FileFormatArguments)
    r key :
  ComposeFieldsForFileFormatArguments assetPath context args0 = Returns r ->
  args0 !! key = None ->
  ~ suppliedByDictionaries context key ->
  key <> "assetname" -> key <> "keepengineopen" ->
  (forall a : FileFormatArguments,
      assignAll (timeCachingAssignments context) a !! key = a !! key) ->
  out_args r !! key = None.
Proof.
  intros Hr Hargs0 Hnot Hk1 Hk2 Htc.
  destruct (Compose_Returns _ _ _ _ Hr) as (parms & Hparms & -> & _).
  rewrite lookup_session, Htc, lookup_assetName by assumption.
  rewrite lookup_assignAll_not_assigned
    by (now apply not_supplied_options).
  rewrite lookup_assignAll_not_assigned
    by (eapply not_supplied_parms; eauto).
  exact Hargs0.
Qed.

(** Outside the range mode the three range settings play no role. *)
Lemma Compose_withoutRangeSettings assetPath context args0 :
  composedMode context <> Some "range" ->
  ComposeFieldsForFileFormatArguments assetPath context args0
  = ComposeFieldsForFileFormatArguments assetPath
      (withoutRangeSettings context) args0.
Proof.
  intros Hmode. rewrite !Compose_assignments.
  assert (forall field, field ∉ rangeSettingTokens ->
            withoutRangeSettings context !! field = context !! field)
    as Hsame by (intros; now apply lookup_withoutRangeSettings).
  assert (composedMode (withoutRangeSettings context) = composedMode context)
    as Hm.
  { unfold composedMode. rewrite Hsame; [reflexivity|].
    unfold rangeSettingTokens. rewrite !not_elem_of_cons.
    repeat split; try discriminate. apply not_elem_of_nil. }
  assert (timeCachingAssignments (withoutRangeSettings context)
          = timeCachingAssignments context) as Htc.
  { unfold timeCachingAssignments. rewrite Hm.
    destruct (composedMode context) as [mode|]; [|reflexivity].
    destruct (decide (mode = "range")) as [->|]; [congruence|reflexivity]. }
  unfold assignments, cacheContextOf, parmsAssignments, optionsAssignments,
    assetNameAssignments, sessionAssignments.
  rewrite Htc, Hm.
  rewrite !Hsame
    by (unfold rangeSettingTokens; rewrite !not_elem_of_cons;
        repeat split; try discriminate; apply not_elem_of_nil).
  reflexivity.
Qed.

End AssignedKeys.

(* ===================================================================== *)
(** ** Time caching metadata *)
(* ===================================================================== *)

Section TimeCaching.
Context {utils : GEO_HAPIUtils} {libs : HostLibraries}.

Lemma range_key_not_control key :
  key ∈ rangeSettings.*2 -> key <> "assetname" /\ key <> "keepengineopen".
Proof.
  intros Hk. destruct (range_key_cases _ Hk) as [-> | [-> | ->]];
    split; discriminate.
Qed.

Lemma range_setting_key field key :
  (field, key) ∈ rangeSettings -> key ∈ rangeSettings.*2.
Proof. intros Hin. apply list_elem_of_fmap. now exists (field, key). Qed.

(** C3. The three range settings (start, end, interval) are consulted
    only when the composed mode string is "range".  In that mode a
    setting that composes to a float is written, stringified, under
    timecachestart / timecacheend / timecacheinterval, and a setting that
    is absent or holds another type leaves its key as it was (nothing is
    written in its place).  Under any other mode the time caching part
    leaves the three keys as they were, and the whole call returns what it
    returns on the context without the three settings.  A key that was
    left alone is in the result only if the mapping already held it or a
    dictionary supplied it.  The call returns whenever no parameter is an
    array without elements. *)
Theorem range_settings_written_only_in_range_mode
    (assetPath : string) (context : PcpDynamicFileFormatContext)
    (args0 : FileFormatArguments) (c : Composition)
    (field : TfToken) (key : string) :
  (field, key) ∈ rangeSettings ->
  let after := (composeTimeCaching context c).1 in
  (composedMode context = Some "range" ->
     args after !! key
     = match composedFloat context field with
       | Some out => Some (TfStringify out)
       | None => args c !! key
       end
     /\ forall r,
         ComposeFieldsForFileFormatArguments assetPath context args0
         = Returns r ->
         match composedFloat context field with
         | Some out => out_args r !! key = Some (TfStringify out)
         | None =>
             args0 !! key = None ->
             ~ suppliedByDictionaries context key ->
             out_args r !! key = None
         end)
  /\ (composedMode context <> Some "range" ->
      args after !! key = args c !! key
      /\ ComposeFieldsForFileFormatArguments assetPath context args0
         = ComposeFieldsForFileFormatArguments assetPath
             (withoutRangeSettings context) args0
      /\ forall r,
          ComposeFieldsForFileFormatArguments assetPath context args0
          = Returns r ->
          args0 !! key = None ->
          ~ suppliedByDictionaries context key ->
          out_args r !! key = None)
  /\ (everyNumericParmHasAnElement context ->
      exists r,
        ComposeFieldsForFileFormatArguments assetPath context args0
        = Returns r).
Proof.
  intros Hin after. subst after.
  pose proof (range_setting_key _ _ Hin) as Hkey.
  destruct (range_key_not_control _ Hkey) as [Hk1 Hk2].
    destruct (composeTimeCaching_assignments context c) as (-> & _ & _).
  split; [|split; [|apply Compose_returns]].
  - intros Hmode. split.
    + now apply lookup_timeCaching_range.
    + intros r Hr.
      destruct (composedFloat context field) as [out|] eqn:Hfield.
      * destruct (Compose_Returns _ _ _ _ Hr) as (parms & _ & -> & _).
        rewrite lookup_session by exact Hk2.
        rewrite (lookup_timeCaching_range _ _ field) by assumption.
        now rewrite Hfield.
      * intros Hargs0 Hnot.
        apply (Compose_key_absent _ _ _ _ _ Hr); try assumption.
        intros a. rewrite (lookup_timeCaching_range _ _ field)
          by assumption.
        now rewrite Hfield.
  - intros Hmode. split; [|split].
    + now apply lookup_timeCaching_outside_range.
    + now apply Compose_withoutRangeSettings.
    + intros r Hr Hargs0 Hnot.
      apply (Compose_key_absent _ _ _ _ _ Hr); try assumption.
      intros a. now apply lookup_timeCaching_outside_range.
Qed.

(** C4, as amended.  The key timecachemethod is written exactly when the
    time cache mode field composes and holds a string, and then with that
    string.  When the field is absent or holds another type the time
    caching part writes nothing at all (no "none" is put in its place):
    only the dependency context data defaults to the None mode, and the
    result has timecachemethod only if the mapping already held it or a
    dictionary supplied it.  The call returns whenever no parameter is an
    array without elements. *)
Theorem timecachemethod_written_when_mode_is_a_string
    (assetPath : string) (context : PcpDynamicFileFormatContext)
    (args0 : FileFormatArguments) (c : Composition) :
  (everyNumericParmHasAnElement context ->
   exists r,
     ComposeFieldsForFileFormatArguments assetPath context args0 = Returns r)
  /\
  match composedMode context with
  | Some mode =>
      args (composeTimeCaching context c).1 !! "timecachemethod"
      = Some mode
      /\ forall r,
          ComposeFieldsForFileFormatArguments assetPath context args0
          = Returns r ->
          out_args r !! "timecachemethod" = Some mode
  | None =>
      args (composeTimeCaching context c).1 = args c
      /\ (composeTimeCaching context c).2 = GEO_HAPI_TIME_CACHING_NONE
      /\ forall r,
          ComposeFieldsForFileFormatArguments assetPath context args0
          = Returns r ->
          out_dependencyContextData r
          = V_GEO_HAPITimeCaching GEO_HAPI_TIME_CACHING_NONE
          /\ (args0 !! "timecachemethod" = None ->
              ~ suppliedByDictionaries context "timecachemethod" ->
              out_args r !! "timecachemethod" = None)
  end.
Proof.
  split; [apply Compose_returns|].
  destruct (composeTimeCaching_assignments context c) as (-> & _ & ->).
  destruct (composedMode context) as [mode|] eqn:Hmode.
  - split.
    + now apply lookup_timeCaching_method.
    + intros r Hr.
      destruct (Compose_Returns _ _ _ _ Hr) as (parms & _ & -> & _).
      rewrite lookup_session by discriminate.
      now apply lookup_timeCaching_method.
  - rewrite timeCachingAssignments_no_mode by exact Hmode.
    split; [reflexivity|]. split.
    + unfold cacheContextOf. now rewrite Hmode.
    + intros r Hr. split.
      * destruct (Compose_Returns _ _ _ _ Hr) as (parms & _ & _ & -> & _).
        unfold cacheContextOf. now rewrite Hmode.
      * intros Hargs0 Hnot.
        apply (Compose_key_absent _ _ _ _ _ Hr);
          try assumption; try discriminate.
        intros a. now rewrite timeCachingAssignments_no_mode.
Qed.

(** C10. When the mode field composes to a string that is none of
    "none", "continuous" and "range", the time caching part makes one
    assignment, timecachemethod with that string as it is; it assigns none
    of timecachestart, timecacheend, timecacheinterval, whatever the three
    range settings hold (the call returns what it returns without them);
    and the dependency context data holds the None mode.  The call returns
    whenever no parameter is an array without elements. *)
Theorem unrecognised_mode_written_verbatim
    (assetPath : string) (context : PcpDynamicFileFormatContext)
    (args0 : FileFormatArguments) (c : Composition) (mode : string) :
  composedMode context = Some mode ->
  mode <> "none" -> mode <> "continuous" -> mode <> "range" ->
  args (composeTimeCaching context c).1
  = <["timecachemethod" := mode]> (args c)
  /\ (composeTimeCaching context c).2 = GEO_HAPI_TIME_CACHING_NONE
  /\ ComposeFieldsForFileFormatArguments assetPath context args0
     = ComposeFieldsForFileFormatArguments assetPath
         (withoutRangeSettings context) args0
  /\ (forall r,
        ComposeFieldsForFileFormatArguments assetPath context args0
        = Returns r ->
        out_args r !! "timecachemethod" = Some mode
        /\ out_dependencyContextData r
           = V_GEO_HAPITimeCaching GEO_HAPI_TIME_CACHING_NONE
        /\ forall key,
            key ∈ rangeSettings.*2 ->
            args0 !! key = None ->
            ~ suppliedByDictionaries context key ->
            out_args r !! key = None)
  /\ (everyNumericParmHasAnElement context ->
      exists r,
        ComposeFieldsForFileFormatArguments assetPath context args0
        = Returns r).
Proof.
  intros Hmode Hnone Hcont Hrange.
  assert (cacheContextOf context = GEO_HAPI_TIME_CACHING_NONE) as Hcc.
  { unfold cacheContextOf. rewrite Hmode.
    repeat (destruct (decide _); [contradiction|]). reflexivity. }
  assert (composedMode context <> Some "range") as Hnot by congruence.
  destruct (composeTimeCaching_assignments context c) as (-> & _ & ->).
  rewrite (timeCachingAssignments_other_mode _ mode) by assumption.
  split; [reflexivity|]. split; [exact Hcc|].
  split; [|split; [|apply Compose_returns]].
  - now apply Compose_withoutRangeSettings.
  - intros r Hr. split; [|split].
    + destruct (Compose_Returns _ _ _ _ Hr) as (parms & _ & -> & _).
      rewrite lookup_session by discriminate.
      now apply lookup_timeCaching_method.
    + destruct (Compose_Returns _ _ _ _ Hr) as (parms & _ & _ & -> & _).
      now rewrite Hcc.
    + intros key Hkey Hargs0 Hsup.
      destruct (range_key_not_control _ Hkey) as [Hk1 Hk2].
      apply (Compose_key_absent _ _ _ _ _ Hr); try assumption.
      intros a. now apply lookup_timeCaching_outside_range.
Qed.

End TimeCaching.

(* ===================================================================== *)
(** ** The parts of the composition, key by key *)
(* ===================================================================== *)

Lemma not_control_key key :
  key ∉ controlKeys ->
  key <> "assetname" /\ key <> "keepengineopen"
  /\ key ∉ ["timecachestart"; "timecacheend"; "timecacheinterval";
            "timecachemethod"].
Proof.
  unfold controlKeys. rewrite !not_elem_of_cons.
  intros (H1 & H2 & H3 & H4 & H5 & H6 & _). repeat split; try assumption.
  apply not_elem_of_nil.
Qed.

(** What a key holds after a sequence of assignments depends on the
    mapping only through what it held under that key. *)
Lemma lookup_assignAll_ext w (a b : FileFormatArguments) key :
  a !! key = b !! key -> assignAll w a !! key = assignAll w b !! key.
Proof.
  intros Hkey. rewrite !lookup_assignAll. now destruct (last _).
Qed.

Section Parts.
Context {utils : GEO_HAPIUtils} {libs : HostLibraries}.

Lemma timeCachingAssignments_keys context key :
  key ∈ (timeCachingAssignments context).*1 ->
  key ∈ ["timecachestart"; "timecacheend"; "timecacheinterval";
         "timecachemethod"].
Proof.
  unfold timeCachingAssignments, rangeAssignment.
  destruct (composedMode context) as [mode|];
    [|cbn; intros Hin; apply elem_of_nil in Hin; contradiction].
  destruct (decide (mode = "range"));
    destruct (composedFloat context theTimeCacheStartToken);
    destruct (composedFloat context theTimeCacheEndToken);
    destruct (composedFloat context theTimeCacheIntervalToken);
    cbn; rewrite ?elem_of_cons, ?elem_of_nil; tauto.
Qed.

Lemma lookup_timeCaching_other context (a : FileFormatArguments) key :
  key ∉ ["timecachestart"; "timecacheend"; "timecacheinterval";
         "timecachemethod"] ->
  assignAll (timeCachingAssignments context) a !! key = a !! key.
Proof.
  intros Hkey. apply lookup_assignAll_not_assigned. intros Hin.
  apply Hkey. now apply timeCachingAssignments_keys in Hin.
Qed.

(** A call whose parameter loop returns, written out. *)
Lemma Compose_of_parms assetPath context args0 parms :
  parmsAssignments context = Returns parms ->
  ComposeFieldsForFileFormatArguments assetPath context args0
  = Returns
      {| out_args :=
           assignAll (sessionAssignments context)
             (assignAll (timeCachingAssignments context)
                (assignAll (assetNameAssignments context)
                   (assignAll (optionsAssignments context)
                      (assignAll parms.1 args0))));
         out_dependencyContextData :=
           V_GEO_HAPITimeCaching (cacheContextOf context);
         out_warnings := parms.2 |}.
Proof.
  intros Hparms. rewrite Compose_assignments. unfold assignments.
  rewrite Hparms. cbn. now rewrite !assignAll_app.
Qed.

(** The asset name, time caching and session parts read neither
    dictionary. *)
Lemma assignments_without_dictionaries context context' :
  (forall field,
      field <> theParamDictToken -> field <> theOptionDictToken ->
      context' !! field = context !! field) ->
  assetNameAssignments context' = assetNameAssignments context
  /\ timeCachingAssignments context' = timeCachingAssignments context
  /\ sessionAssignments context' = sessionAssignments context
  /\ cacheContextOf context' = cacheContextOf context.
Proof.
  intros Hsame.
  unfold assetNameAssignments, timeCachingAssignments,
    sessionAssignments, cacheContextOf, rangeAssignment, composedMode,
    composedFloat.
  rewrite !Hsame by discriminate. auto.
Qed.

End Parts.

(* ===================================================================== *)
(** ** Options dictionary *)
(* ===================================================================== *)

Lemma fold_addOption_other optDict (a : FileFormatArguments) key :
  key ∉ optDict.*1 -> fold_left addOption optDict a !! key = a !! key.
Proof.
  revert a. induction optDict as [|[optName data] rest IH]; intros a Hkey.
  - reflexivity.
  - cbn in Hkey. apply not_elem_of_cons in Hkey as [Hne Hrest].
    cbn [fold_left]. rewrite IH by exact Hrest. unfold addOption.
    destruct (Get_string data); [|reflexivity].
    now rewrite lookup_insert_ne by congruence.
Qed.

Lemma fold_addOption_entry optDict (a : FileFormatArguments) optName data :
  NoDup optDict.*1 ->
  (optName, data) ∈ optDict ->
  fold_left addOption optDict a !! optName
  = match Get_string data with
    | Some out => Some out
    | None => a !! optName
    end.
Proof.
  revert a. induction optDict as [|[n v] rest IH]; intros a Hnodup Hin.
  - apply elem_of_nil in Hin. contradiction.
  - cbn in Hnodup. apply NoDup_cons in Hnodup as [Hfresh Hnodup].
    cbn [fold_left]. apply elem_of_cons in Hin as [Heq | Hin].
    + injection Heq as -> ->. rewrite fold_addOption_other by exact Hfresh.
      unfold addOption. destruct (Get_string v); [|reflexivity].
      apply lookup_insert_eq.
    + rewrite IH by assumption.
      destruct (Get_string data); [reflexivity|].
      assert (n <> optName) as Hne.
      { intros ->. apply Hfresh. apply list_elem_of_fmap.
        now exists (optName, data). }
      unfold addOption. destruct (Get_string v); [|reflexivity].
      now rewrite lookup_insert_ne by exact Hne.
Qed.

Section Options.
Context {utils : GEO_HAPIUtils} {libs : HostLibraries}.

(** The asset name, time caching and session parts, applied to a
    mapping. *)
Lemma lookup_later_parts context (a b : FileFormatArguments) key :
  a !! key = b !! key ->
  assignAll (sessionAssignments context)
    (assignAll (timeCachingAssignments context)
       (assignAll (assetNameAssignments context) a)) !! key
  = assignAll (sessionAssignments context)
      (assignAll (timeCachingAssignments context)
         (assignAll (assetNameAssignments context) b)) !! key.
Proof. intros Hkey. now do 3 apply lookup_assignAll_ext. Qed.

(** C6. Each entry of the options dictionary is copied into the mapping
    under its own name, value unchanged, exactly when its value is a
    string; an entry of any other type leaves the mapping as it was under
    that name; keys that name no option are untouched; and the options
    post no warning.  This holds of the options loop and of the call: in
    the mapping that the call returns, a string option whose name is no
    control key is under its own name with its own value, whatever the
    parameters and the incoming mapping put there; under the name of a
    control key the mapping holds what the asset name, time caching and
    session fields make of the option's value; under the name of an option
    of another type, and under every key that names no option, the call
    returns what it returns without the options dictionary, with the same
    warnings and the same dependency context data.  The call returns
    whenever no parameter is an array without elements. *)
Theorem options_copy_exactly_the_string_entries
    (assetPath : string) (context : PcpDynamicFileFormatContext)
    (args0 : FileFormatArguments) (c : Composition)
    (optDict : VtDictionary) :
  context !! theOptionDictToken = Some (V_VtDictionary optDict) ->
  NoDup optDict.*1 ->
  let after := composeOptions context c in
  let without := delete theOptionDictToken context in
  (forall optName data,
      (optName, data) ∈ optDict ->
      args after !! optName
      = match Get_string data with
        | Some out => Some out
        | None => args c !! optName
        end)
  /\ (forall key, key ∉ optDict.*1 -> args after !! key = args c !! key)
  /\ warnings after = warnings c
  /\ Outcome_map out_warnings
       (ComposeFieldsForFileFormatArguments assetPath context args0)
     = Outcome_map out_warnings
         (ComposeFieldsForFileFormatArguments assetPath without args0)
  /\ (forall r,
        ComposeFieldsForFileFormatArguments assetPath context args0
        = Returns r ->
        exists r0,
          ComposeFieldsForFileFormatArguments assetPath without args0
          = Returns r0
          /\ out_warnings r = out_warnings r0
          /\ out_dependencyContextData r = out_dependencyContextData r0
          /\ (forall optName data,
                (optName, data) ∈ optDict ->
                match Get_string data with
                | Some out =>
                    (optName ∉ controlKeys ->
                     out_args r !! optName = Some out)
                    /\ exists r',
                        ComposeFieldsForFileFormatArguments assetPath
                          (delete theParamDictToken without)
                          {[ optName := out ]}
                        = Returns r'
                        /\ out_args r !! optName = out_args r' !! optName
                | None => out_args r !! optName = out_args r0 !! optName
                end)
          /\ (forall key,
                key ∉ optDict.*1 ->
                out_args r !! key = out_args r0 !! key))
  /\ (everyNumericParmHasAnElement context ->
      exists r,
        ComposeFieldsForFileFormatArguments assetPath context args0
        = Returns r).
Proof.
  intros Hdict Hnodup after without.
  assert (args after = fold_left addOption optDict (args c)) as Hargs.
  { subst after. unfold composeOptions, ComposeValue. now rewrite Hdict. }
  split; [|split; [|split; [|split; [|split]]]].
  - intros optName data Hin. rewrite Hargs.
    now apply fold_addOption_entry.
  - intros key Hkey. rewrite Hargs. now apply fold_addOption_other.
  - apply composeOptions_assignments.
  - rewrite !Compose_assignments. unfold assignments, parmsAssignments.
    subst without. rewrite lookup_delete_ne by discriminate.
    destruct (_ ≫= _) as [paramDict|]; [|reflexivity].
    destruct (parmAssignments paramDict); reflexivity.
  - intros r Hr.
    destruct (Compose_Returns _ _ _ _ Hr) as (parms & Hparms & Ha & Hd & Hw).
    assert (optionsAssignments context = optionAssignments optDict) as Hopts.
    { unfold optionsAssignments. now rewrite Hdict. }
    rewrite Hopts, <- fold_addOption in Ha.
    destruct (assignments_without_dictionaries context without)
      as (Hasset & Htime & Hsession & Hcache).
    { intros field _ Hfield. subst without. now apply lookup_delete_ne. }
    assert (parmsAssignments without = Returns parms) as Hparms0.
    { unfold parmsAssignments. subst without.
      rewrite lookup_delete_ne by discriminate. exact Hparms. }
    assert (optionsAssignments without = []) as Hopts0.
    { unfold optionsAssignments. subst without.
      now rewrite lookup_delete_eq. }
    eexists. split; [exact (Compose_of_parms _ _ _ _ Hparms0)|].
    cbn [out_args out_warnings out_dependencyContextData].
    rewrite Hasset, Htime, Hsession, Hcache, Hopts0.
    split; [exact Hw|]. split; [exact Hd|]. split.
    + intros optName data Hin.
      pose proof (fold_addOption_entry optDict (assignAll parms.1 args0)
                    optName data Hnodup Hin) as Hentry.
      destruct (Get_string data) as [out|].
      * split.
        -- intros Hkey. destruct (not_control_key _ Hkey) as (Hk1 & Hk2 & Hk3).
           rewrite Ha, lookup_session, lookup_timeCaching_other,
             lookup_assetName by assumption.
           exact Hentry.
        -- destruct (assignments_without_dictionaries context
                       (delete theParamDictToken without))
             as (Hasset' & Htime' & Hsession' & Hcache').
           { intros field Hparm Hopt. subst without.
             rewrite lookup_delete_ne by congruence.
             now apply lookup_delete_ne. }
           eexists. split.
           ++ apply (Compose_of_parms _ _ _ ([], [])).
              unfold parmsAssignments. now rewrite lookup_delete_eq.
           ++ cbn [out_args fst].
              assert (optionsAssignments (delete theParamDictToken without)
                      = []) as ->.
              { unfold optionsAssignments. subst without.
                rewrite lookup_delete_ne by discriminate.
                now rewrite lookup_delete_eq. }
              rewrite Hasset', Htime', Hsession', Ha.
              apply lookup_later_parts. rewrite Hentry.
              cbn [assignAll fold_left].
              now rewrite lookup_singleton_eq.
      * rewrite Ha. apply lookup_later_parts. exact Hentry.
    + intros key Hkey. rewrite Ha. apply lookup_later_parts.
      now apply fold_addOption_other.
  - apply Compose_returns.
Qed.

End Options.

(* ===================================================================== *)
(** ** Determinism *)
(* ===================================================================== *)

Section Determinism.
Context {utils : GEO_HAPIUtils} {libs : HostLibraries}.


Lemma parmAssignments_out_of_bounds paramDict entry :
  entry ∈ paramDict ->
  parmAssignment entry = OutOfBounds ->
  parmAssignments paramDict = OutOfBounds.
Proof.
  induction paramDict as [|first rest IH]; intros Hin Hentry.
  - apply elem_of_nil in Hin. contradiction.
  - cbn [parmAssignments]. apply elem_of_cons in Hin as [<- | Hin].
    + now rewrite Hentry.
    + rewrite (IH Hin Hentry). now destruct (parmAssignment first).
Qed.



End Determinism.

(* ===================================================================== *)
(** ** Numeric parameters that are empty arrays *)
(* ===================================================================== *)

Section EmptyArray.
Context {utils : GEO_HAPIUtils} {libs : HostLibraries}.

(** C5, where the code departs from it.  A parameter whose first
    succeeding cast is an array cast that yields no element is not
    written as the (empty) joined list: [addToArgs] formats [data[0]]
    before it looks at [count], a read outside the array, and a call of
    the composition over a parameter dictionary with such an entry does
    not return. *)
Theorem empty_array_parameter_is_read_out_of_bounds
    (parmName : string) (parmData : VtValue) (e : NodeParmEnv)
    (assetPath : string) (context : PcpDynamicFileFormatContext)
    (paramDict : VtDictionary) (args0 : FileFormatArguments) :
  Cast_double parmData = None ->
  Cast_GfVec2d parmData = None ->
  Cast_GfVec3d parmData = None ->
  Cast_GfVec4d parmData = None ->
  Cast_VtDoubleArray parmData = Some []
  \/ (Cast_VtDoubleArray parmData = None
      /\ Cast_VtInt64Array parmData = Some []) ->
  addNumericNodeParmToFormatArgs parmName parmData e = OutOfBounds
  /\ (Get_string parmData = None ->
      context !! theParamDictToken = Some (V_VtDictionary paramDict) ->
      (parmName, parmData) ∈ paramDict ->
      ComposeFieldsForFileFormatArguments assetPath context args0
      = OutOfBounds).
Proof.
  intros H1 H2 H3 H4 Harray.
  assert (firstCast parmData = Some []) as Hfirst.
  { unfold firstCast. rewrite H1, H2, H3, H4.
    destruct Harray as [-> | [-> ->]]; reflexivity. }
  split.
  - rewrite addNumericNodeParmToFormatArgs_cases. now rewrite Hfirst.
  - intros Hstr Hdict Hin. rewrite Compose_assignments.
    unfold assignments, parmsAssignments. rewrite Hdict. cbn.
    rewrite (parmAssignments_out_of_bounds paramDict (parmName, parmData));
      [reflexivity | exact Hin |].
    unfold parmAssignment. cbn [fst snd]. now rewrite Hstr, Hfirst.
Qed.

End EmptyArray.

(* ===================================================================== *)
(** ** The theorems at concrete layers *)
(* ===================================================================== *)

Lemma range_settings_written_only_in_range_mode_witness :
  args (Sample.timeCaching Sample.fullRange Sample.fresh).1
    !! "timecachestart" = Some "1"
  /\ args (Sample.timeCaching Sample.partialRange Sample.fresh).1
       !! "timecacheinterval" = None
  /\ Sample.compose Sample.casedMode ∅
     = Sample.compose (withoutRangeSettings Sample.casedMode) ∅.
Proof.
  assert ((theTimeCacheStartToken, "timecachestart") ∈ rangeSettings)
    as Hstart by (apply elem_of_cons; left; reflexivity).
  assert ((theTimeCacheIntervalToken, "timecacheinterval") ∈ rangeSettings)
    as Hinterval
    by (do 2 (apply elem_of_cons; right); apply elem_of_cons; left;
        reflexivity).
  assert (composedMode Sample.fullRange = Some "range") as Hfull
    by (vm_compute; reflexivity).
  assert (composedMode Sample.partialRange = Some "range") as Hpartial
    by (vm_compute; reflexivity).
  assert (composedMode Sample.casedMode <> Some "range") as Hcased
    by (vm_compute; discriminate).
  split; [|split].
  - destruct (range_settings_written_only_in_range_mode
                (utils := Sample.utils) (libs := Sample.libs)
                "asset.hda" Sample.fullRange ∅ Sample.fresh _ _ Hstart)
      as [Hrange _].
    destruct (Hrange Hfull) as [Hwritten _].
    unfold Sample.timeCaching. rewrite Hwritten. vm_compute. reflexivity.
  - destruct (range_settings_written_only_in_range_mode
                (utils := Sample.utils) (libs := Sample.libs)
                "asset.hda" Sample.partialRange ∅ Sample.fresh _ _ Hinterval)
      as [Hrange _].
    destruct (Hrange Hpartial) as [Hwritten _].
    unfold Sample.timeCaching. rewrite Hwritten. vm_compute. reflexivity.
  - destruct (range_settings_written_only_in_range_mode
                (utils := Sample.utils) (libs := Sample.libs)
                "asset.hda" Sample.casedMode ∅ Sample.fresh _ _ Hstart)
      as (_ & Hother & _).
    destruct (Hother Hcased) as (_ & Hsame & _). exact Hsame.
Defined.

(** C4, as written, does not hold: with no mode field, or with a mode field
    that is not a string, the returned mapping has no timecachemethod. *)
Lemma absent_mode_writes_no_timecachemethod :
  Sample.entries (Sample.compose ∅ ∅)
  = Returns ([], V_GEO_HAPITimeCaching GEO_HAPI_TIME_CACHING_NONE, [])
  /\ Outcome_map (fun r => out_args r !! "timecachemethod")
       (Sample.compose ∅ ∅) = Returns None
  /\ Outcome_map (fun r => out_args r !! "timecachemethod")
       (Sample.compose {[ theTimeCacheModeToken := V_TfToken "range" ]} ∅)
     = Returns None.
Proof. repeat split; vm_compute; reflexivity. Qed.

Lemma timecachemethod_written_when_mode_is_a_string_witness :
  args (Sample.timeCaching Sample.fullRange Sample.fresh).1
    !! "timecachemethod" = Some "range"
  /\ args (Sample.timeCaching ∅ Sample.fresh).1 = ∅.
Proof.
  split.
  - pose proof (timecachemethod_written_when_mode_is_a_string
                  (utils := Sample.utils) (libs := Sample.libs)
                  "asset.hda" Sample.fullRange ∅ Sample.fresh) as Hmode.
    assert (composedMode Sample.fullRange = Some "range") as E
      by (vm_compute; reflexivity).
        rewrite E in Hmode. exact (proj1 (proj2 Hmode)).
  - pose proof (timecachemethod_written_when_mode_is_a_string
                  (utils := Sample.utils) (libs := Sample.libs)
                  "asset.hda" ∅ ∅ Sample.fresh) as Hmode.
    assert (composedMode ∅ = None) as E by reflexivity.
        rewrite E in Hmode. exact (proj1 (proj2 Hmode)).
Defined.

Lemma empty_array_parameter_is_read_out_of_bounds_witness :
  Sample.numericParm "pts" (V_VtDoubleArray []) Sample.noEnv = OutOfBounds
  /\ Sample.compose Sample.emptyArrayParm ∅ = OutOfBounds.
Proof.
  destruct (empty_array_parameter_is_read_out_of_bounds
              (utils := Sample.utils) (libs := Sample.libs)
              "pts" (V_VtDoubleArray []) Sample.noEnv
              "asset.hda" Sample.emptyArrayParm
              [("amount", V_double 2%float); ("pts", V_VtDoubleArray [])] ∅
              eq_refl eq_refl eq_refl eq_refl (or_introl eq_refl))
    as [Hparm Hcall].
  split; [exact Hparm|].
  apply Hcall.
  - reflexivity.
  - vm_compute. reflexivity.
  - apply elem_of_cons. right. apply elem_of_cons. left. reflexivity.
Defined.


Lemma options_copy_exactly_the_string_entries_witness :
  args (composeOptions Sample.withOptions Sample.fresh) !! "camera"
  = Some "/cam1"
  /\ args (composeOptions Sample.withOptions Sample.fresh) !! "frames" = None
  /\ Outcome_map (fun r => (out_args r !! "camera", out_args r !! "frames"))
       (Sample.compose Sample.withOptions Cases.incoming)
     = Returns (Some "/cam1", None).
Proof.
  assert (Sample.withOptions !! theOptionDictToken
          = Some (V_VtDictionary Sample.someOptions)) as Hdict
    by (vm_compute; reflexivity).
  assert (NoDup Sample.someOptions.*1) as Hnodup
    by (apply (bool_decide_eq_true_1 _); vm_compute; reflexivity).
  destruct (options_copy_exactly_the_string_entries
              (utils := Sample.utils) (libs := Sample.libs)
              "asset.hda" Sample.withOptions Cases.incoming Sample.fresh
              Sample.someOptions Hdict Hnodup)
    as (Hentry & _ & _ & _ & Hcall & _).
  assert (("camera", V_string "/cam1") ∈ Sample.someOptions) as Hcamera
    by (apply elem_of_cons; left; reflexivity).
  assert (("frames", V_int 3) ∈ Sample.someOptions) as Hframes
    by (apply elem_of_cons; right; apply elem_of_cons; left; reflexivity).
  split; [|split].
  - rewrite (Hentry "camera" (V_string "/cam1")) by exact Hcamera.
    reflexivity.
  - rewrite (Hentry "frames" (V_int 3)) by exact Hframes.
    reflexivity.
  - destruct (Sample.compose Sample.withOptions Cases.incoming) as [r|] eqn:E;
      [|vm_compute in E; discriminate].
    destruct (Hcall r E) as (r0 & Hr0 & _ & _ & Hoptions & _).
    pose proof (Hoptions "camera" (V_string "/cam1") Hcamera) as [Hcam _].
    pose proof (Hoptions "frames" (V_int 3) Hframes) as Hfr.
    cbn [Get_string] in Hfr.
    assert (Sample.compose
              (delete theOptionDictToken Sample.withOptions) Cases.incoming
            = Returns
                {| out_args := Cases.incoming;
                   out_dependencyContextData :=
                     V_GEO_HAPITimeCaching GEO_HAPI_TIME_CACHING_NONE;
                   out_warnings := [] |}) as Hwithout
      by (vm_compute; reflexivity).
    unfold Sample.compose in Hwithout.
    rewrite Hwithout in Hr0. injection Hr0 as <-.
    cbn [Outcome_map Outcome_bind]. rewrite Hfr, Hcam.
    + reflexivity.
    + apply (bool_decide_eq_true_1 _). vm_compute. reflexivity.
Defined.

Lemma unrecognised_mode_written_verbatim_witness :
  args (Sample.timeCaching Sample.casedMode Sample.fresh).1
  = <["timecachemethod" := "Range"]> ∅
  /\ (Sample.timeCaching Sample.casedMode Sample.fresh).2
     = GEO_HAPI_TIME_CACHING_NONE.
Proof.
  assert (composedMode Sample.casedMode = Some "Range") as Hmode
    by (vm_compute; reflexivity).
  destruct (unrecognised_mode_written_verbatim
              (utils := Sample.utils) (libs := Sample.libs)
              "asset.hda" Sample.casedMode ∅ Sample.fresh "Range" Hmode
              ltac:(discriminate) ltac:(discriminate) ltac:(discriminate))
    as (Hargs & Hcache & _).
  split; [exact Hargs | exact Hcache].
Defined.

(** The scenarios of the format description, run. *)
Example scenario_speed :
  Sample.compose Sample.speedOnly ∅
  = Returns {| out_args := {[ "numeric_speed" := "4";
                              "timecachemethod" := "none" ]};
               out_dependencyContextData :=
                 V_GEO_HAPITimeCaching GEO_HAPI_TIME_CACHING_NONE;
               out_warnings := [] |}.
Proof. vm_compute. reflexivity. Qed.

Example scenario_range :
  Sample.entries (Sample.compose Sample.fullRange ∅)
  = Returns ([("timecachestart", "1"); ("timecachemethod", "range");
              ("timecacheend", "24"); ("timecacheinterval", "0.5")],
             V_GEO_HAPITimeCaching GEO_HAPI_TIME_CACHING_RANGE, []).
Proof. vm_compute. reflexivity. Qed.

Example scenario_range_without_start :
  Sample.entries (Sample.compose Sample.partialRange ∅)
  = Returns ([("timecachemethod", "range"); ("timecacheend", "24")],
             V_GEO_HAPITimeCaching GEO_HAPI_TIME_CACHING_RANGE, []).
Proof. vm_compute. reflexivity. Qed.

(** The options are copied under their own names whatever the mode is: an
    option named like a range key is in the result under that key. *)
Example scenario_option_named_like_range_key :
  Sample.entries (Sample.compose Sample.optionNamedLikeRangeKey ∅)
  = Returns ([("timecachestart", "5"); ("timecachemethod", "none")],
             V_GEO_HAPITimeCaching GEO_HAPI_TIME_CACHING_NONE, []).
Proof. vm_compute. reflexivity. Qed.

Example scenario_parameters :
  Sample.compose Sample.manyParms ∅
  = Returns {| out_args := {[ "string_file" := "a.bgeo";
                              "numeric_pivot" := "1.5 2 -3.25";
                              "numeric_ids" := "7 8 9";
                              "keepengineopen" := "1" ]};
               out_dependencyContextData :=
                 V_GEO_HAPITimeCaching GEO_HAPI_TIME_CACHING_NONE;
               out_warnings := ["Unexpected data type 'TfToken' for parameter."] |}.
Proof. vm_compute. reflexivity. Qed.

(** A name is written into a string key up to its first NUL: two string
    parameters whose names read as the same C string share one key, and
    the later one is in the result. *)
Example scenario_names_with_NUL :
  Cases.compose Cases.withNamesWithNUL ∅
  = Returns {| out_args := {[ "string_file" := "b.bgeo";
                              "numeric_scale" := "2" ]};
               out_dependencyContextData :=
                 V_GEO_HAPITimeCaching GEO_HAPI_TIME_CACHING_NONE;
               out_warnings := [] |}.
Proof. vm_compute. reflexivity. Qed.

Example VtValue_comparison :
  VtValue_eqb (V_double nan) (V_double nan) = false
  /\ VtValue_eqb (V_int 1) (V_double 1%float) = false
  /\ VtValue_eqb (V_VtDictionary [("a", V_string "x")])
       (V_VtDictionary [("a", V_string "x")]) = true.
Proof. repeat split; reflexivity. Qed.

Lemma Read_installs_data_only_when_opened_witness :
  (Sample.read Sample.toyLayer "missing.usd").1 = false
  /\ (Sample.read Sample.toyLayer "missing.usd").2 = Sample.toyLayer
  /\ layerData (Sample.read Sample.toyLayer "asset.hda").2
     = ["HoudiniLayerInfo"].
Proof.
  pose proof (Read_installs_data_only_when_opened (list string)
                Sample.toyNew Sample.toyOpen Sample.toyLayer
                "missing.usd" false) as Hfailed.
  pose proof (Read_installs_data_only_when_opened (list string)
                Sample.toyNew Sample.toyOpen Sample.toyLayer
                "asset.hda" false) as Hopened.
  cbv zeta in Hfailed, Hopened.
  destruct Hfailed as [Hflag Hlayer]. destruct Hopened as [_ Hdata].
  split; [|split].
  - unfold Sample.read. rewrite Hflag. vm_compute. reflexivity.
  - exact Hlayer.
  - exact (proj1 Hdata).
Defined.

(* ===================================================================== *)
(** ** The parameter dictionary, entry by entry *)
(* ===================================================================== *)

Section Parameters.
Context {utils : GEO_HAPIUtils} {libs : HostLibraries}.

Lemma composeParms_Returns context c c' :
  composeParms context c = Returns c' ->
  exists parms,
    parmsAssignments context = Returns parms
    /\ args c' = assignAll parms.1 (args c)
    /\ warnings c' = (warnings c ++ parms.2)%list.
Proof.
  intros Hc. pose proof (composeParms_assignments context c) as Heq.
  rewrite Hc in Heq.
  destruct (parmsAssignments context) as [parms|]; cbn in Heq;
    [|discriminate].
  injection Heq as Ha Hw. eauto.
Qed.

Lemma parmAssignments_app (before after : VtDictionary) :
  parmAssignments (before ++ after)%list
  = let! a := parmAssignments before in
    let! b := parmAssignments after in
    Returns ((a.1 ++ b.1)%list, (a.2 ++ b.2)%list).
Proof.
  induction before as [|entry before IH].
  - cbn. destruct (parmAssignments after) as [[w ws]|]; reflexivity.
  - cbn [app parmAssignments]. rewrite IH.
    destruct (parmAssignment entry) as [one|]; [|reflexivity].
    destruct (parmAssignments before) as [a|]; [|reflexivity].
    destruct (parmAssignments after) as [b|]; [|reflexivity].
    cbn. now rewrite !app_assoc.
Qed.

(** The key that an entry assigns, by the kind of entry. *)
Lemma parmAssignment_key entry one key :
  parmAssignment entry = Returns one ->
  key ∈ one.1.*1 ->
  (Get_string entry.2 = None
   /\ key = GEO_HDA_PARM_NUMERIC_PREFIX ++ entry.1)
  \/ (is_Some (Get_string entry.2)
      /\ key = c_str GEO_HDA_PARM_STRING_PREFIX ++ c_str entry.1).
Proof.
  unfold parmAssignment.
  destruct (Get_string entry.2) as [strData|].
  - intros [= <-]. cbn. rewrite list_elem_of_singleton. eauto.
  - destruct (firstCast entry.2) as [[|x elements]|]; [discriminate| |];
      intros [= <-]; cbn; [|rewrite elem_of_nil; tauto].
    rewrite list_elem_of_singleton. tauto.
Qed.

Lemma parmAssignments_key paramDict parms key :
  parmAssignments paramDict = Returns parms ->
  key ∈ parms.1.*1 ->
  exists parmName data,
    (parmName, data) ∈ paramDict
    /\ ((Get_string data = None
         /\ key = GEO_HDA_PARM_NUMERIC_PREFIX ++ parmName)
        \/ (is_Some (Get_string data)
            /\ key = c_str GEO_HDA_PARM_STRING_PREFIX ++ c_str parmName)).
Proof.
  revert parms. induction paramDict as [|entry rest IH]; intros parms.
  - intros [= <-]. cbn. rewrite elem_of_nil. tauto.
  - cbn [parmAssignments].
    destruct (parmAssignment entry) as [one|] eqn:Hone; [|discriminate].
    destruct (parmAssignments rest) as [more|]; [|discriminate].
    intros [= <-]. cbn [fst]. rewrite fmap_app, elem_of_app.
    intros [Hin | Hin].
    + exists entry.1, entry.2. split.
      * destruct entry. apply elem_of_cons. now left.
      * eapply parmAssignment_key; eauto.
    + destruct (IH more eq_refl Hin) as (n & d & Hnd & Hk).
      exists n, d. split; [apply elem_of_cons; now right | exact Hk].
Qed.

(** The numeric key of a name is assigned by no entry of another name. *)
Lemma numeric_key_not_assigned paramDict parms parmName :
  prefixesDoNotCollide ->
  parmName ∉ paramDict.*1 ->
  parmAssignments paramDict = Returns parms ->
  (GEO_HDA_PARM_NUMERIC_PREFIX ++ parmName) ∉ parms.1.*1.
Proof.
  intros Hfree Hfresh Hparms Hin.
  destruct (parmAssignments_key _ _ _ Hparms Hin)
    as (n & d & Hnd & [[_ Heq] | [_ Heq]]).
  - apply String.app_inj in Heq. subst n. apply Hfresh.
    apply list_elem_of_fmap. now exists (parmName, d).
  - exact (Hfree _ _ Heq).
Qed.

(** The string key of a name is assigned by no entry but a string entry
    whose name reads as the same C string. *)
Lemma string_key_not_assigned paramDict parms parmName :
  prefixesDoNotCollide ->
  (forall other otherData,
      (other, otherData) ∈ paramDict ->
      is_Some (Get_string otherData) ->
      c_str other <> c_str parmName) ->
  parmAssignments paramDict = Returns parms ->
  (c_str GEO_HDA_PARM_STRING_PREFIX ++ c_str parmName) ∉ parms.1.*1.
Proof.
  intros Hfree Hother Hparms Hin.
  destruct (parmAssignments_key _ _ _ Hparms Hin)
    as (n & d & Hnd & [[_ Heq] | [Hstr Heq]]).
  - symmetry in Heq. exact (Hfree _ _ Heq).
  - apply String.app_inj in Heq. symmetry in Heq.
    exact (Hother n d Hnd Hstr Heq).
Qed.

Lemma NoDup_names_split (before after : VtDictionary) parmName
    (data : VtValue) :
  NoDup (before ++ (parmName, data) :: after)%list.*1 ->
  (parmName ∉ before.*1) /\ (parmName ∉ after.*1).
Proof.
  rewrite fmap_app, fmap_cons. cbn [fst]. intros Hnodup.
  apply NoDup_app in Hnodup as (_ & Hbefore & Hrest).
  apply NoDup_cons in Hrest as [Hafter _]. split; [|exact Hafter].
  intros Hin. apply (Hbefore _ Hin). apply elem_of_cons. now left.
Qed.

(** What is under the key of an entry after the assignments of the whole
    dictionary. *)
Lemma parm_entry_lookup (before after : VtDictionary) parms parmName data
    (a : FileFormatArguments) :
  prefixesDoNotCollide ->
  NoDup (before ++ (parmName, data) :: after)%list.*1 ->
  parmAssignments (before ++ (parmName, data) :: after)%list
  = Returns parms ->
  match Get_string data with
  | Some strData =>
      (forall other otherData,
          (other, otherData) ∈ after ->
          is_Some (Get_string otherData) ->
          c_str other <> c_str parmName) ->
      assignAll parms.1 a
        !! (c_str GEO_HDA_PARM_STRING_PREFIX ++ c_str parmName)
      = Some strData
  | None =>
      assignAll parms.1 a !! (GEO_HDA_PARM_NUMERIC_PREFIX ++ parmName)
      = match firstCast data with
        | Some elements => Some (joined GEO_HDA_PARM_SEPARATOR elements)
        | None => a !! (GEO_HDA_PARM_NUMERIC_PREFIX ++ parmName)
        end
  end.
Proof.
  intros Hfree Hnodup Hparms.
  destruct (NoDup_names_split _ _ _ _ Hnodup) as [Hbefore Hafter].
  rewrite parmAssignments_app in Hparms. cbn [parmAssignments] in Hparms.
  destruct (parmAssignments before) as [b|] eqn:Hb; [|discriminate].
  destruct (parmAssignment (parmName, data)) as [one|] eqn:Hone;
    [|discriminate].
  destruct (parmAssignments after) as [f|] eqn:Hf; [|discriminate].
  cbn in Hparms. injection Hparms as <-. cbn [fst].
  rewrite !assignAll_app.
  unfold parmAssignment in Hone. cbn [fst snd] in Hone.
  destruct (Get_string data) as [strData|].
  - intros Hlater. injection Hone as <-.
    rewrite lookup_assignAll_not_assigned
      by (now apply (string_key_not_assigned after)).
    cbn. apply lookup_insert_eq.
  - rewrite lookup_assignAll_not_assigned
      by (now apply (numeric_key_not_assigned after)).
    destruct (firstCast data) as [[|x elements]|]; [discriminate| |];
      injection Hone as <-.
    + cbn. apply lookup_insert_eq.
    + cbn [assignAll fold_left fst].
      apply lookup_assignAll_not_assigned.
      now apply (numeric_key_not_assigned before).
Qed.

(** X1. In a parameter dictionary whose numeric and string keys cannot
    coincide, once the loop has run: an entry that a cast accepts is under
    the numeric prefix followed by its name, as the formatted elements
    that were reached, joined by the separator; an entry that is neither a
    string nor accepted by a cast leaves that key as it was.  A string
    entry is under the string prefix followed by its name as a C string,
    that is, up to the first NUL of either, with its value unchanged,
    provided no later string entry has a name that reads as the same C
    string; such a later entry takes the key. *)
Theorem parameter_written_under_prefixed_name
    (context : PcpDynamicFileFormatContext) (c c' : Composition)
    (before after : VtDictionary) (parmName : string) (data : VtValue) :
  context !! theParamDictToken
  = Some (V_VtDictionary (before ++ (parmName, data) :: after)%list) ->
  NoDup (before ++ (parmName, data) :: after)%list.*1 ->
  prefixesDoNotCollide ->
  composeParms context c = Returns c' ->
  match Get_string data with
  | Some strData =>
      (forall other otherData,
          (other, otherData) ∈ after ->
          is_Some (Get_string otherData) ->
          c_str other <> c_str parmName) ->
      args c' !! (c_str GEO_HDA_PARM_STRING_PREFIX ++ c_str parmName)
      = Some strData
  | None =>
      args c' !! (GEO_HDA_PARM_NUMERIC_PREFIX ++ parmName)
      = match firstCast data with
        | Some elements => Some (joined GEO_HDA_PARM_SEPARATOR elements)
        | None => args c !! (GEO_HDA_PARM_NUMERIC_PREFIX ++ parmName)
        end
  end.
Proof.
  intros Hdict Hnodup Hfree Hc.
  destruct (composeParms_Returns _ _ _ Hc) as (parms & Hparms & -> & _).
  unfold parmsAssignments in Hparms. rewrite Hdict in Hparms.
  cbn in Hparms.
  exact (parm_entry_lookup before after parms parmName data (args c)
           Hfree Hnodup Hparms).
Qed.

Lemma parmAssignments_warnings paramDict parms :
  parmAssignments paramDict = Returns parms ->
  parms.2
  = warningFor <$> filter (fun entry => unsupported entry.2 = true) paramDict.
Proof.
  revert parms. induction paramDict as [|entry rest IH]; intros parms.
  - now intros [= <-].
  - cbn [parmAssignments].
    destruct (parmAssignment entry) as [one|] eqn:Hone; [|discriminate].
    destruct (parmAssignments rest) as [more|]; [|discriminate].
    intros [= <-]. cbn [snd]. rewrite (IH more eq_refl).
    unfold VtDictionary. rewrite filter_cons.
    assert (one.2 = if unsupported entry.2 then [warningFor entry] else [])
      as ->.
    { unfold parmAssignment in Hone. unfold unsupported.
      destruct (Get_string entry.2) as [strData|];
        [now injection Hone as <-|].
      destruct (firstCast entry.2) as [[|x elements]|]; [discriminate| |];
        now injection Hone as <-. }
    destruct (unsupported entry.2); destruct (decide _);
      try discriminate; try contradiction; reflexivity.
Qed.

(** X3. The warnings of a call that returns are exactly the warnings for
    the entries of the parameter dictionary that are neither strings nor
    accepted by a cast, one each, in the order of the dictionary; without
    a parameter dictionary there is none.  Nothing else in the composition
    posts a warning. *)
Theorem warnings_are_those_of_unsupported_parameters
    (assetPath : string) (context : PcpDynamicFileFormatContext)
    (args0 : FileFormatArguments) (r : Composed) :
  ComposeFieldsForFileFormatArguments assetPath context args0 = Returns r ->
  out_warnings r
  = match context !! theParamDictToken ≫= Get_VtDictionary with
    | Some paramDict =>
        warningFor
          <$> filter (fun entry => unsupported entry.2 = true) paramDict
    | None => []
    end.
Proof.
  intros Hr.
  destruct (Compose_Returns _ _ _ _ Hr) as (parms & Hparms & _ & _ & ->).
  unfold parmsAssignments in Hparms.
  destruct (_ ≫= _) as [paramDict|].
  - now apply parmAssignments_warnings.
  - now injection Hparms as <-.
Qed.

Lemma assignments_without_parms context context' :
  (forall field, field <> theParamDictToken ->
                 context' !! field = context !! field) ->
  optionsAssignments context' = optionsAssignments context
  /\ assetNameAssignments context' = assetNameAssignments context
  /\ timeCachingAssignments context' = timeCachingAssignments context
  /\ sessionAssignments context' = sessionAssignments context
  /\ cacheContextOf context' = cacheContextOf context.
Proof.
  intros Hsame.
  unfold optionsAssignments, assetNameAssignments, timeCachingAssignments,
    sessionAssignments, cacheContextOf, rangeAssignment, composedMode,
    composedFloat.
  rewrite !Hsame by discriminate. auto.
Qed.

(** X2. An entry of the parameter dictionary that is no string and that
    none of the six casts accepts does not stop the composition and does
    not change its result: the call returns the mapping and the dependency
    context data that it returns on the dictionary without that entry (and
    reads outside an array exactly when that call does). *)
Theorem unsupported_parameter_is_skipped
    (assetPath : string) (context : PcpDynamicFileFormatContext)
    (args0 : FileFormatArguments) (before after : VtDictionary)
    (parmName : string) (data : VtValue) :
  context !! theParamDictToken
  = Some (V_VtDictionary (before ++ (parmName, data) :: after)%list) ->
  Get_string data = None ->
  Cast_double data = None -> Cast_GfVec2d data = None ->
  Cast_GfVec3d data = None -> Cast_GfVec4d data = None ->
  Cast_VtDoubleArray data = None -> Cast_VtInt64Array data = None ->
  Outcome_map (fun r => (out_args r, out_dependencyContextData r))
    (ComposeFieldsForFileFormatArguments assetPath context args0)
  = Outcome_map (fun r => (out_args r, out_dependencyContextData r))
      (ComposeFieldsForFileFormatArguments assetPath
         (<[theParamDictToken := V_VtDictionary (before ++ after)%list]> context)
         args0).
Proof.
  intros Hdict Hstr H1 H2 H3 H4 H5 H6.
  assert (parmAssignment (parmName, data)
          = Returns ([], [warningFor (parmName, data)])) as Hentry.
  { unfold parmAssignment, firstCast. cbn [fst snd].
    now rewrite Hstr, H1, H2, H3, H4, H5, H6. }
  rewrite !Compose_assignments. unfold assignments.
  destruct (assignments_without_parms context
              (<[theParamDictToken := V_VtDictionary (before ++ after)%list]>
                 context))
    as (-> & -> & -> & -> & ->).
  { intros field Hfield. now rewrite lookup_insert_ne. }
  unfold parmsAssignments. rewrite Hdict, lookup_insert_eq. cbn [mbind
    option_bind Get_VtDictionary].
  rewrite !parmAssignments_app. cbn [parmAssignments]. rewrite Hentry.
  destruct (parmAssignments before) as [a|]; [|reflexivity].
  destruct (parmAssignments after) as [b|]; reflexivity.
Qed.

End Parameters.

(* ===================================================================== *)
(** ** What the composition leaves alone, and which part wins *)
(* ===================================================================== *)

Section Precedence.
Context {utils : GEO_HAPIUtils} {libs : HostLibraries}.

Lemma is_Some_assignAll w (a : FileFormatArguments) key :
  is_Some (a !! key) -> is_Some (assignAll w a !! key).
Proof.
  intros Hsome. rewrite lookup_assignAll. destruct (last _); eauto.
Qed.

(** X4. The composition never removes an entry: every key of the mapping
    it is handed is a key of the mapping it returns. *)
Theorem composition_never_removes_an_entry
    (assetPath : string) (context : PcpDynamicFileFormatContext)
    (args0 : FileFormatArguments) (r : Composed) (key : string) :
  ComposeFieldsForFileFormatArguments assetPath context args0 = Returns r ->
  is_Some (args0 !! key) ->
  is_Some (out_args r !! key).
Proof.
  intros Hr Hsome.
  destruct (Compose_Returns _ _ _ _ Hr) as (parms & _ & -> & _).
  now repeat apply is_Some_assignAll.
Qed.

(** X5. The composition touches only the six control keys and the keys the
    two dictionaries supply: under every other key the returned mapping
    holds what the incoming mapping held, or nothing if it held nothing. *)
Theorem composition_leaves_other_keys_alone
    (assetPath : string) (context : PcpDynamicFileFormatContext)
    (args0 : FileFormatArguments) (r : Composed) (key : string) :
  ComposeFieldsForFileFormatArguments assetPath context args0 = Returns r ->
  key ∉ controlKeys ->
  ~ suppliedByDictionaries context key ->
  out_args r !! key = args0 !! key.
Proof.
  intros Hr Hkey Hnot.
  destruct (not_control_key _ Hkey) as (Hk1 & Hk2 & Hk3).
  destruct (Compose_Returns _ _ _ _ Hr) as (parms & Hparms & -> & _).
  rewrite lookup_session, lookup_timeCaching_other, lookup_assetName
    by assumption.
  rewrite lookup_assignAll_not_assigned by (now apply not_supplied_options).
  apply lookup_assignAll_not_assigned.
  eapply not_supplied_parms; eauto.
Qed.

(** X6. Options are written after the parameters and before the control
    fields: a string option whose name is not a control key is in the
    returned mapping under its own name with its own value, whatever the
    incoming mapping held there and whatever key the parameters built. *)
Theorem string_option_is_in_the_result
    (assetPath : string) (context : PcpDynamicFileFormatContext)
    (args0 : FileFormatArguments) (r : Composed)
    (optDict : VtDictionary) (optName out : string) :
  context !! theOptionDictToken = Some (V_VtDictionary optDict) ->
  NoDup optDict.*1 ->
  (optName, V_string out) ∈ optDict ->
  optName ∉ controlKeys ->
  ComposeFieldsForFileFormatArguments assetPath context args0 = Returns r ->
  out_args r !! optName = Some out.
Proof.
  intros Hdict Hnodup Hin Hkey Hr.
  destruct (not_control_key _ Hkey) as (Hk1 & Hk2 & Hk3).
  destruct (Compose_Returns _ _ _ _ Hr) as (parms & _ & -> & _).
  rewrite lookup_session, lookup_timeCaching_other, lookup_assetName
    by assumption.
  unfold optionsAssignments. rewrite Hdict. cbn [mbind option_bind
    Get_VtDictionary].
  rewrite <- fold_addOption.
  now rewrite (fold_addOption_entry optDict _ optName (V_string out)).
Qed.

(** X7. The asset name field wins over the dictionaries: when it composes
    to a string, the returned mapping holds that string under assetname,
    whatever an option or a parameter put there; when it is absent or holds
    another type, the asset name part leaves the mapping as it was. *)
Theorem asset_name_field_wins
    (assetPath : string) (context : PcpDynamicFileFormatContext)
    (args0 : FileFormatArguments) (c : Composition) :
  match context !! theAssetNameToken ≫= Get_string with
  | Some name =>
      forall r,
        ComposeFieldsForFileFormatArguments assetPath context args0
        = Returns r ->
        out_args r !! "assetname" = Some name
  | None => args (composeAssetName context c) = args c
  end.
Proof.
  destruct (composeAssetName_assignments context c) as [Hargs _].
  unfold assetNameAssignments in Hargs.
  destruct (context !! theAssetNameToken ≫= Get_string) as [name|] eqn:E.
  - intros r Hr.
    destruct (Compose_Returns _ _ _ _ Hr) as (parms & _ & -> & _).
    rewrite lookup_session by discriminate.
    rewrite lookup_timeCaching_other
      by (rewrite !not_elem_of_cons; repeat split; try discriminate;
          apply not_elem_of_nil).
    unfold assetNameAssignments. rewrite E. cbn. apply lookup_insert_eq.
  - exact Hargs.
Qed.

(** X8. The session field is written last and only as a boolean: when it
    composes to a [bool], the returned mapping holds "1" or "0" under
    keepengineopen, whatever was there; when it is absent or holds another
    type (an integer 1, say), the session part leaves the mapping as it
    was. *)
Theorem session_flag_written_only_for_a_bool
    (assetPath : string) (context : PcpDynamicFileFormatContext)
    (args0 : FileFormatArguments) (c : Composition) :
  match context !! theHAPISessionToken ≫= Get_bool with
  | Some holdSession =>
      forall r,
        ComposeFieldsForFileFormatArguments assetPath context args0
        = Returns r ->
        out_args r !! "keepengineopen"
        = Some (if holdSession : bool then "1" else "0")
  | None => args (composeSession context c) = args c
  end.
Proof.
  destruct (composeSession_assignments context c) as [Hargs _].
  unfold sessionAssignments in Hargs.
  destruct (context !! theHAPISessionToken ≫= Get_bool) as [b|] eqn:E.
  - intros r Hr.
    destruct (Compose_Returns _ _ _ _ Hr) as (parms & _ & -> & _).
    unfold sessionAssignments. rewrite E. cbn. apply lookup_insert_eq.
  - exact Hargs.
Qed.

(** X9. The dependency context data always holds a caching mode, and the
    mode follows the mode string exactly as written: Range if and only if
    the string is "range", Continuous if and only if it is "continuous",
    None in every other case. *)
Theorem dependency_data_follows_the_mode_string
    (assetPath : string) (context : PcpDynamicFileFormatContext)
    (args0 : FileFormatArguments) (r : Composed) :
  ComposeFieldsForFileFormatArguments assetPath context args0 = Returns r ->
  exists mode,
    out_dependencyContextData r = V_GEO_HAPITimeCaching mode
    /\ (mode = GEO_HAPI_TIME_CACHING_RANGE
        <-> composedMode context = Some "range")
    /\ (mode = GEO_HAPI_TIME_CACHING_CONTINUOUS
        <-> composedMode context = Some "continuous")
    /\ (mode = GEO_HAPI_TIME_CACHING_NONE
        <-> composedMode context <> Some "range"
            /\ composedMode context <> Some "continuous").
Proof.
  intros Hr.
  destruct (Compose_Returns _ _ _ _ Hr) as (parms & _ & _ & -> & _).
  exists (cacheContextOf context). split; [reflexivity|].
  unfold cacheContextOf.
  destruct (composedMode context) as [mode|].
  - destruct (decide (mode = "none")) as [->|Hnone].
    { repeat split; intros; try discriminate; try congruence.
      all: intuition discriminate. }
    destruct (decide (mode = "continuous")) as [->|Hcont].
    { repeat split; intros; try discriminate; try congruence.
      all: intuition congruence. }
    destruct (decide (mode = "range")) as [->|Hrange].
    { repeat split; intros; try discriminate; try congruence.
      all: intuition congruence. }
    repeat split; intros; try discriminate; try congruence.
  - repeat split; intros; try discriminate; try congruence.
Qed.

Lemma withoutRangeSettings_insert context field value :
  field ∈ rangeSettingTokens ->
  withoutRangeSettings (<[field := value]> context)
  = withoutRangeSettings context.
Proof.
  intros Hfield. apply map_eq. intros tok.
  destruct (decide (tok ∈ rangeSettingTokens)) as [Htok | Htok].
  - unfold withoutRangeSettings, rangeSettingTokens in *.
    rewrite !elem_of_cons, elem_of_nil in Htok.
    destruct Htok as [-> | [-> | [-> | []]]];
      rewrite ?lookup_delete_eq;
      repeat (rewrite lookup_delete_ne by discriminate;
              rewrite ?lookup_delete_eq);
      reflexivity.
  - rewrite !lookup_withoutRangeSettings by exact Htok.
    apply lookup_insert_ne. intros ->. contradiction.
Qed.

Lemma withoutRangeSettings_delete context field :
  field ∈ rangeSettingTokens ->
  withoutRangeSettings (delete field context) = withoutRangeSettings context.
Proof.
  intros Hfield. apply map_eq. intros tok.
  destruct (decide (tok ∈ rangeSettingTokens)) as [Htok | Htok].
  - unfold withoutRangeSettings, rangeSettingTokens in *.
    rewrite !elem_of_cons, elem_of_nil in Htok.
    destruct Htok as [-> | [-> | [-> | []]]];
      rewrite ?lookup_delete_eq;
      repeat (rewrite lookup_delete_ne by discriminate;
              rewrite ?lookup_delete_eq);
      reflexivity.
  - rewrite !lookup_withoutRangeSettings by exact Htok.
    apply lookup_delete_ne. intros ->. contradiction.
Qed.

Lemma range_token_is_not_mode field :
  field ∈ rangeSettingTokens -> field <> theTimeCacheModeToken.
Proof.
  unfold rangeSettingTokens. rewrite !elem_of_cons, elem_of_nil.
  intros [-> | [-> | [-> | []]]]; discriminate.
Qed.

(** X10. The early [return false] is sound.  When the decision, given the
    dependency context data that a composition returned, answers false for
    a change of a range setting between two values that do differ, the
    composition is indeed unaffected: on the context with the setting
    replaced by the new value, and on the context without the setting, it
    returns the same mapping, the same dependency context data and the same
    warnings. *)
Theorem early_return_is_sound
    (assetPath : string) (context : PcpDynamicFileFormatContext)
    (args0 : FileFormatArguments) (r : Composed)
    (field : TfToken) (oldValue newValue : VtValue) :
  ComposeFieldsForFileFormatArguments assetPath context args0 = Returns r ->
  field ∈ rangeSettingTokens ->
  VtValue_eqb oldValue newValue = false ->
  CanFieldChangeAffectFileFormatArguments field oldValue newValue
    (out_dependencyContextData r) = false ->
  ComposeFieldsForFileFormatArguments assetPath
    (<[field := newValue]> context) args0 = Returns r
  /\ ComposeFieldsForFileFormatArguments assetPath
       (delete field context) args0 = Returns r.
Proof.
  intros Hr Hfield Hdiffer Hdecision.
  assert (composedMode context <> Some "range") as Hmode.
  { intros Hrange.
    destruct (Compose_Returns _ _ _ _ Hr) as (parms & _ & _ & Hdep & _).
    rewrite Hdep in Hdecision.
    unfold CanFieldChangeAffectFileFormatArguments in Hdecision.
    apply rangeSettingTokens_test in Hfield. rewrite Hfield in Hdecision.
    unfold cacheContextOf in Hdecision. rewrite Hrange in Hdecision.
    cbn in Hdecision. unfold VtValue_neb in Hdecision.
    rewrite Hdiffer in Hdecision. discriminate. }
  pose proof (range_token_is_not_mode _ Hfield) as Hne.
  split.
  - rewrite Compose_withoutRangeSettings.
    + rewrite withoutRangeSettings_insert by exact Hfield.
      rewrite <- Compose_withoutRangeSettings by exact Hmode. exact Hr.
    + unfold composedMode. now rewrite lookup_insert_ne.
  - rewrite Compose_withoutRangeSettings.
    + rewrite withoutRangeSettings_delete by exact Hfield.
      rewrite <- Compose_withoutRangeSettings by exact Hmode. exact Hr.
    + unfold composedMode. now rewrite lookup_delete_ne.
Qed.

End Precedence.

(* ===================================================================== *)
(** ** Parameters in the returned mapping; the decision under range *)
(* ===================================================================== *)

Section EndToEnd.
Context {utils : GEO_HAPIUtils} {libs : HostLibraries}.

Lemma options_do_not_assign context key :
  (forall optDict out,
      context !! theOptionDictToken = Some (V_VtDictionary optDict) ->
      (key, V_string out) ∉ optDict) ->
  key ∉ (optionsAssignments context).*1.
Proof.
  intros Hnone Hin. unfold optionsAssignments in Hin.
  destruct (context !! theOptionDictToken) as [v|] eqn:Hv; cbn in Hin;
    [|apply elem_of_nil in Hin; contradiction].
  destruct v; cbn in Hin; try (apply elem_of_nil in Hin; contradiction).
  destruct (optionAssignments_keys _ _ Hin) as (out & Hout).
  exact (Hnone d out eq_refl Hout).
Qed.

(** X13. A parameter reaches the returned mapping unless something written
    later takes its key.  The key of a string entry is the string prefix
    followed by its name, each up to its first NUL; the key of any other
    entry is the numeric prefix followed by its name.  When that key is no
    control key and no string option carries it as its name, the returned
    mapping holds under it: the value of a string entry, provided no later
    string entry has a name that reads as the same C string; the joined
    elements of an entry that a cast accepts; and, for an entry that is
    neither, what the incoming mapping held. *)
Theorem parameter_is_in_the_result
    (assetPath : string) (context : PcpDynamicFileFormatContext)
    (args0 : FileFormatArguments) (r : Composed)
    (before after : VtDictionary) (parmName : string) (data : VtValue) :
  context !! theParamDictToken
  = Some (V_VtDictionary (before ++ (parmName, data) :: after)%list) ->
  NoDup (before ++ (parmName, data) :: after)%list.*1 ->
  prefixesDoNotCollide ->
  ComposeFieldsForFileFormatArguments assetPath context args0 = Returns r ->
  let key :=
    match Get_string data with
    | Some _ => c_str GEO_HDA_PARM_STRING_PREFIX ++ c_str parmName
    | None => GEO_HDA_PARM_NUMERIC_PREFIX ++ parmName
    end in
  key ∉ controlKeys ->
  (forall optDict out,
      context !! theOptionDictToken = Some (V_VtDictionary optDict) ->
      (key, V_string out) ∉ optDict) ->
  match Get_string data with
  | Some strData =>
      (forall other otherData,
          (other, otherData) ∈ after ->
          is_Some (Get_string otherData) ->
          c_str other <> c_str parmName) ->
      out_args r !! key = Some strData
  | None =>
      out_args r !! key
      = match firstCast data with
        | Some elements => Some (joined GEO_HDA_PARM_SEPARATOR elements)
        | None => args0 !! key
        end
  end.
Proof.
  intros Hdict Hnodup Hfree Hr key Hkey Hoptions.
  destruct (not_control_key _ Hkey) as (Hk1 & Hk2 & Hk3).
  destruct (Compose_Returns _ _ _ _ Hr) as (parms & Hparms & -> & _).
  rewrite lookup_session, lookup_timeCaching_other, lookup_assetName
    by assumption.
  rewrite lookup_assignAll_not_assigned
    by (now apply options_do_not_assign).
  unfold parmsAssignments in Hparms. rewrite Hdict in Hparms.
  cbn in Hparms.
  pose proof (parm_entry_lookup before after parms parmName data args0
                Hfree Hnodup Hparms) as Hentry.
  subst key. destruct (Get_string data) as [strData|]; exact Hentry.
Qed.

(** X14. Under the range mode the decision reports every change of a range
    setting: given the dependency context data that a composition under
    the mode string "range" returned, the answer for a range setting is
    true exactly when the old and the new value are unequal. *)
Theorem range_setting_change_reported_under_range
    (assetPath : string) (context : PcpDynamicFileFormatContext)
    (args0 : FileFormatArguments) (r : Composed)
    (field : TfToken) (oldValue newValue : VtValue) :
  ComposeFieldsForFileFormatArguments assetPath context args0 = Returns r ->
  composedMode context = Some "range" ->
  field ∈ rangeSettingTokens ->
  CanFieldChangeAffectFileFormatArguments field oldValue newValue
    (out_dependencyContextData r)
  = negb (VtValue_eqb oldValue newValue).
Proof.
  intros Hr Hmode Hfield.
  destruct (Compose_Returns _ _ _ _ Hr) as (parms & _ & _ & -> & _).
  unfold CanFieldChangeAffectFileFormatArguments.
  apply rangeSettingTokens_test in Hfield. rewrite Hfield.
  unfold cacheContextOf. rewrite Hmode. reflexivity.
Qed.

End EndToEnd.

(* ===================================================================== *)
(** ** CanRead once more *)
(* ===================================================================== *)

Module PathFacts.
Import Tf TfFacts.

Lemma length_nonempty s : s <> "" -> 1 <= String.length s.
Proof. destruct s; [contradiction | cbn; lia]. Qed.

Lemma TfGetBaseName_nonempty s :
  s <> "" ->
  TfGetBaseName s =
    match rfind "/" s with
    | None => s
    | Some i =>
        if Nat.eqb i (String.length s - 1)
        then TfGetBaseName (substring 0 i s)
        else substr_from (S i) s
    end.
Proof. destruct s; [contradiction | intros _; apply TfGetBaseName_unfold]. Qed.

Lemma TfGetExtension_nonempty s :
  s <> "" ->
  TfGetExtension s =
    match TfStringGetBeforeSuffix (TfGetBaseName s) with
    | EmptyString => ""
    | _ => TfStringGetSuffix (TfGetBaseName s)
    end.
Proof. destruct s; [contradiction | reflexivity]. Qed.

(** The base name of [dir/name] is [name]. *)
Lemma TfGetBaseName_in_directory dir name :
  name <> "" -> rfind "/" name = None ->
  TfGetBaseName (dir ++ "/" ++ name) = name.
Proof.
  intros Hname Hnone. pose proof (length_nonempty _ Hname) as Hlen.
  assert (rfind "/" (dir ++ "/" ++ name) = Some (String.length dir + 0))
    as Hlast.
  { apply rfind_app_present. change ("/" ++ name) with (String "/" name).
    cbn [rfind]. now rewrite Hnone. }
  assert (String.length (dir ++ "/" ++ name)
          = String.length dir + S (String.length name)) as Htotal.
  { rewrite length_append. reflexivity. }
  rewrite TfGetBaseName_nonempty.
  2:{ intros Hempty. rewrite Hempty in Htotal. cbn in Htotal. lia. }
  rewrite Hlast, Htotal.
  replace (Nat.eqb (String.length dir + 0)
             (String.length dir + S (String.length name) - 1)) with false
    by (symmetry; apply Nat.eqb_neq; lia).
  unfold substr_from. rewrite Htotal, Nat.add_0_r.
  rewrite <- string_app_assoc_tf.
  replace (S (String.length dir)) with (String.length (dir ++ "/"))
    by (rewrite length_append; cbn; lia).
  rewrite substring_suffix.
  match goal with
  | |- substring 0 ?n name = name =>
      replace n with (String.length name)
        by (rewrite length_append; cbn; lia)
  end.
  apply substring_whole.
Qed.

End PathFacts.

(** X12. [CanRead] looks at the last path component only: for a file name
    without directory delimiter, the answer for the name inside any
    directory is the answer for the name alone. *)
Theorem CanRead_ignores_the_directory (dir name : string) :
  name <> "" ->
  Tf.rfind "/" name = None ->
  CanRead (dir ++ "/" ++ name) = CanRead name.
Proof.
  intros Hname Hnone. unfold CanRead.
  rewrite (PathFacts.TfGetExtension_nonempty (dir ++ "/" ++ name)).
  - rewrite PathFacts.TfGetBaseName_in_directory by assumption.
    rewrite (PathFacts.TfGetExtension_nonempty name) by exact Hname.
    now rewrite TfFacts.TfGetBaseName_plain.
  - intros Hempty.
    pose proof (TfFacts.length_append dir ("/" ++ name)) as Hlen.
    rewrite Hempty in Hlen. change ("/" ++ name) with (String "/" name) in Hlen.
    cbn in Hlen. lia.
Qed.

(* ===================================================================== *)
(** ** The further theorems at concrete layers *)
(* ===================================================================== *)

Lemma sample_prefixes_do_not_collide :
  prefixesDoNotCollide (H := Sample.utils).
Proof. intros n n' Heq. cbv in Heq. discriminate Heq. Qed.

Lemma parameter_written_under_prefixed_name_witness :
  Outcome_map
    (fun c => (args c !! "string_file", args c !! "numeric_scale"))
    (Cases.parms Cases.withNamesWithNUL)
  = Returns (Some "b.bgeo", Some "2").
Proof.
  assert (NoDup Cases.namesWithNUL.*1) as Hnodup
    by (apply (bool_decide_eq_true_1 _); vm_compute; reflexivity).
  destruct (Cases.parms Cases.withNamesWithNUL) as [c'|] eqn:E;
    [|vm_compute in E; discriminate].
  pose proof (parameter_written_under_prefixed_name
                (utils := Sample.utils) (libs := Sample.libs)
                Cases.withNamesWithNUL Sample.fresh c'
                [("file", V_string "a.bgeo")]
                [("scale", V_double 2%float)]
                ("file" ++ Cases.NUL ++ "old") (V_string "b.bgeo")
                ltac:(vm_compute; reflexivity) Hnodup
                sample_prefixes_do_not_collide E) as Hfile.
  pose proof (parameter_written_under_prefixed_name
                (utils := Sample.utils) (libs := Sample.libs)
                Cases.withNamesWithNUL Sample.fresh c'
                [("file", V_string "a.bgeo");
                 ("file" ++ Cases.NUL ++ "old", V_string "b.bgeo")]
                [] "scale" (V_double 2%float)
                ltac:(vm_compute; reflexivity) Hnodup
                sample_prefixes_do_not_collide E) as Hscale.
  change ((forall other otherData,
              (other, otherData) ∈ [("scale", V_double 2%float)] ->
              is_Some (Get_string otherData) ->
              c_str other <> c_str ("file" ++ Cases.NUL ++ "old")) ->
          args c' !! "string_file" = Some "b.bgeo") in Hfile.
  change (args c' !! "numeric_scale" = Some "2") in Hscale.
  cbn [Outcome_map Outcome_bind]. rewrite Hscale, Hfile; [reflexivity|].
  intros other otherData Hin Hstr.
  apply list_elem_of_singleton in Hin. injection Hin as -> ->.
  destruct Hstr as [strData Hstr]. discriminate Hstr.
Defined.

Lemma unsupported_parameter_is_skipped_witness :
  Outcome_map (fun r => (out_args r, out_dependencyContextData r))
    (Cases.compose Cases.withMixedParms ∅)
  = Outcome_map (fun r => (out_args r, out_dependencyContextData r))
      (Cases.compose
         (<[theParamDictToken :=
              V_VtDictionary [("file", V_string "a.bgeo");
                              ("scale", V_double 2%float)]]>
            Cases.withMixedParms) ∅).
Proof.
  apply (unsupported_parameter_is_skipped
           (utils := Sample.utils) (libs := Sample.libs)
           "asset.hda" Cases.withMixedParms ∅
           [("file", V_string "a.bgeo")] [("scale", V_double 2%float)]
           "label" (V_TfToken "x"));
    reflexivity.
Defined.

Lemma warnings_are_those_of_unsupported_parameters_witness :
  Outcome_map out_warnings (Cases.compose Cases.withMixedParms ∅)
  = Returns ["Unexpected data type 'TfToken' for parameter."].
Proof.
  destruct (Cases.compose Cases.withMixedParms ∅) as [r|] eqn:E;
    [|vm_compute in E; discriminate].
  cbn [Outcome_map Outcome_bind].
  rewrite (warnings_are_those_of_unsupported_parameters
             (utils := Sample.utils) (libs := Sample.libs)
             "asset.hda" Cases.withMixedParms ∅ r E).
  vm_compute. reflexivity.
Defined.

Lemma crowded_does_not_supply_target :
  ~ suppliedByDictionaries (H := Sample.utils) Cases.crowded "target".
Proof.
  intros [(optDict & out & Hdict & Hin)
         | (paramDict & parmName & data & Hdict & _)].
  - assert (Cases.crowded !! theOptionDictToken
            = Some (V_VtDictionary Cases.crowdedOptions)) as E
      by (vm_compute; reflexivity).
    rewrite E in Hdict. injection Hdict as <-.
    unfold Cases.crowdedOptions in Hin.
    rewrite !elem_of_cons, elem_of_nil in Hin.
    destruct Hin as [Hin | [Hin | []]]; discriminate Hin.
  - assert (Cases.crowded !! theParamDictToken = None) as E
      by (vm_compute; reflexivity).
    rewrite E in Hdict. discriminate Hdict.
Qed.

Lemma composition_never_removes_an_entry_witness :
  match Cases.compose Cases.crowded Cases.incoming with
  | Returns r => is_Some (out_args r !! "target")
  | OutOfBounds => False
  end.
Proof.
  destruct (Cases.compose Cases.crowded Cases.incoming) as [r|] eqn:E;
    [|vm_compute in E; discriminate].
  apply (composition_never_removes_an_entry
           (utils := Sample.utils) (libs := Sample.libs)
           "asset.hda" Cases.crowded Cases.incoming r "target" E).
  exists "usd". vm_compute. reflexivity.
Defined.

Lemma composition_leaves_other_keys_alone_witness :
  Outcome_map (fun r => out_args r !! "target")
    (Cases.compose Cases.crowded Cases.incoming)
  = Returns (Some "usd").
Proof.
  destruct (Cases.compose Cases.crowded Cases.incoming) as [r|] eqn:E;
    [|vm_compute in E; discriminate].
  cbn [Outcome_map Outcome_bind].
  rewrite (composition_leaves_other_keys_alone
             (utils := Sample.utils) (libs := Sample.libs)
             "asset.hda" Cases.crowded Cases.incoming r "target" E).
  - vm_compute. reflexivity.
  - apply (bool_decide_eq_true_1 _). vm_compute. reflexivity.
  - exact crowded_does_not_supply_target.
Defined.

Lemma string_option_is_in_the_result_witness :
  Outcome_map (fun r => out_args r !! "camera")
    (Cases.compose Cases.crowded Cases.incoming)
  = Returns (Some "/cam1").
Proof.
  destruct (Cases.compose Cases.crowded Cases.incoming) as [r|] eqn:E;
    [|vm_compute in E; discriminate].
  cbn [Outcome_map Outcome_bind].
  rewrite (string_option_is_in_the_result
             (utils := Sample.utils) (libs := Sample.libs)
             "asset.hda" Cases.crowded Cases.incoming r
             Cases.crowdedOptions "camera" "/cam1").
  - reflexivity.
  - vm_compute. reflexivity.
  - apply (bool_decide_eq_true_1 _). vm_compute. reflexivity.
  - apply elem_of_cons. right. apply elem_of_cons. left. reflexivity.
  - apply (bool_decide_eq_true_1 _). vm_compute. reflexivity.
  - exact E.
Defined.

Lemma asset_name_field_wins_witness :
  Outcome_map (fun r => out_args r !! "assetname")
    (Cases.compose Cases.crowded Cases.incoming)
  = Returns (Some "Object/box").
Proof.
  destruct (Cases.compose Cases.crowded Cases.incoming) as [r|] eqn:E;
    [|vm_compute in E; discriminate].
  cbn [Outcome_map Outcome_bind].
  pose proof (asset_name_field_wins
                (utils := Sample.utils) (libs := Sample.libs)
                "asset.hda" Cases.crowded Cases.incoming Sample.fresh)
    as Hwins.
  change (forall r,
             Cases.compose Cases.crowded Cases.incoming = Returns r ->
             out_args r !! "assetname" = Some "Object/box") in Hwins.
  now rewrite (Hwins r E).
Defined.

Lemma session_flag_written_only_for_a_bool_witness :
  Outcome_map (fun r => out_args r !! "keepengineopen")
    (Cases.compose Cases.crowded Cases.incoming)
  = Returns (Some "0")
  /\ args (composeSession {[ theHAPISessionToken := V_int 1 ]} Sample.fresh)
     = ∅.
Proof.
  split.
  - destruct (Cases.compose Cases.crowded Cases.incoming) as [r|] eqn:E;
      [|vm_compute in E; discriminate].
    cbn [Outcome_map Outcome_bind].
    pose proof (session_flag_written_only_for_a_bool
                  (utils := Sample.utils) (libs := Sample.libs)
                  "asset.hda" Cases.crowded Cases.incoming Sample.fresh)
      as Hflag.
    change (forall r,
               Cases.compose Cases.crowded Cases.incoming = Returns r ->
               out_args r !! "keepengineopen" = Some "0") in Hflag.
    now rewrite (Hflag r E).
  - exact (session_flag_written_only_for_a_bool
             (utils := Sample.utils) (libs := Sample.libs)
             "asset.hda" {[ theHAPISessionToken := V_int 1 ]} ∅ Sample.fresh).
Defined.

Lemma dependency_data_follows_the_mode_string_witness :
  Outcome_map out_dependencyContextData
    (Cases.compose Cases.crowded Cases.incoming)
  = Returns (V_GEO_HAPITimeCaching GEO_HAPI_TIME_CACHING_CONTINUOUS).
Proof.
  destruct (Cases.compose Cases.crowded Cases.incoming) as [r|] eqn:E;
    [|vm_compute in E; discriminate].
  cbn [Outcome_map Outcome_bind].
  destruct (dependency_data_follows_the_mode_string
              (utils := Sample.utils) (libs := Sample.libs)
              "asset.hda" Cases.crowded Cases.incoming r E)
    as (mode & -> & _ & Hcontinuous & _).
  rewrite (proj2 Hcontinuous); [reflexivity|].
  vm_compute. reflexivity.
Defined.

Lemma early_return_is_sound_witness :
  Cases.compose (<[theTimeCacheStartToken := V_float 2%float]> Cases.crowded)
    Cases.incoming
  = Cases.compose Cases.crowded Cases.incoming.
Proof.
  destruct (Cases.compose Cases.crowded Cases.incoming) as [r|] eqn:E;
    [|vm_compute in E; discriminate].
  apply (early_return_is_sound
           (utils := Sample.utils) (libs := Sample.libs)
           "asset.hda" Cases.crowded Cases.incoming r
           theTimeCacheStartToken (V_float 1%float) (V_float 2%float) E).
  - apply elem_of_cons. left. reflexivity.
  - reflexivity.
  - destruct (@Compose_Returns Sample.utils Sample.libs "asset.hda"
                Cases.crowded Cases.incoming r E)
      as (parms & _ & _ & Hdep & _).
    rewrite Hdep. vm_compute. reflexivity.
Defined.

Lemma CanRead_ignores_the_directory_witness :
  CanRead ("/assets/props" ++ "/" ++ "box.hda") = CanRead "box.hda".
Proof.
  apply CanRead_ignores_the_directory.
  - discriminate.
  - vm_compute. reflexivity.
Defined.

Lemma parameter_is_in_the_result_witness :
  Outcome_map (fun r => out_args r !! "numeric_scale")
    (Cases.compose Cases.withMixedParms Cases.incoming)
  = Returns (Some "2").
Proof.
  destruct (Cases.compose Cases.withMixedParms Cases.incoming) as [r|] eqn:E;
    [|vm_compute in E; discriminate].
  cbn [Outcome_map Outcome_bind].
  assert (NoDup Cases.mixedParms.*1) as Hnodup
    by (apply (bool_decide_eq_true_1 _); vm_compute; reflexivity).
  pose proof (parameter_is_in_the_result
                (utils := Sample.utils) (libs := Sample.libs)
                "asset.hda" Cases.withMixedParms Cases.incoming r
                [("file", V_string "a.bgeo"); ("label", V_TfToken "x")] []
                "scale" (V_double 2%float)
                ltac:(vm_compute; reflexivity) Hnodup
                sample_prefixes_do_not_collide E) as Hscale.
  cbv zeta in Hscale.
  change (("numeric_scale" : string) ∉ controlKeys ->
          (forall optDict out,
              Cases.withMixedParms !! theOptionDictToken
              = Some (V_VtDictionary optDict) ->
              ("numeric_scale", V_string out) ∉ optDict) ->
          out_args r !! "numeric_scale" = Some "2") in Hscale.
  f_equal. apply Hscale.
  - apply (bool_decide_eq_true_1 _). vm_compute. reflexivity.
  - intros optDict out Hopt. vm_compute in Hopt. discriminate Hopt.
Defined.

Lemma range_setting_change_reported_under_range_witness :
  Outcome_map
    (fun r =>
       CanFieldChangeAffectFileFormatArguments theTimeCacheEndToken
         (V_float 24%float) (V_float 48%float) (out_dependencyContextData r))
    (Sample.compose Sample.fullRange ∅)
  = Returns true.
Proof.
  destruct (Sample.compose Sample.fullRange ∅) as [r|] eqn:E;
    [|vm_compute in E; discriminate].
  cbn [Outcome_map Outcome_bind].
  rewrite (range_setting_change_reported_under_range
             (utils := Sample.utils) (libs := Sample.libs)
             "asset.hda" Sample.fullRange ∅ r theTimeCacheEndToken
             (V_float 24%float) (V_float 48%float) E).
  - reflexivity.
  - vm_compute. reflexivity.
  - apply elem_of_cons. right. apply elem_of_cons. left. reflexivity.
Defined.
